(** * getty connection adapters (conn.go): a shallow embedding

    The file follows conn.go top-down: the process-wide variables
    ([launchTime], [connID]), the shared [gettyConn] record with its
    methods, then the stream adapter [gettyTCPConn] (module [TCP]) and the
    message adapter [gettyWSConn] (module [WS]).

    Go's fixed-width integers are [Z] with the wrap-around written out.
    A method with a pointer receiver is a computation in a small
    state-and-panic monad whose state is the receiver together with the
    process-wide [World]; a [panic] keeps the state reached so far. *)

From Stdlib Require Import ZArith List String Bool Lia Sorted.
From Stdlib Require Import Strings.Byte.
Import ListNotations.

Local Open Scope Z_scope.

(** ** Fixed-width integers *)

(** Conversion to [uint32]: the low 32 bits. *)
Definition uint32 (z : Z) : Z := z mod 2 ^ 32.

(** Conversion to [int64]: the low 64 bits, read as two's complement. *)
Definition int64 (z : Z) : Z := (z + 2 ^ 63) mod 2 ^ 64 - 2 ^ 63.

Definition maxInt64 : Z := 2 ^ 63 - 1.
Definition minInt64 : Z := - 2 ^ 63.

(** [atomic.AddUint32(addr, delta)]: the new value, stored and returned. *)
Definition AddUint32 (old delta : Z) : Z := uint32 (old + delta).

(** ** Errors *)

(** The dynamic values an [error] can hold, as far as conn.go tells them
    apart: the sentinel [websocket.ErrCloseSent], a [*websocket.CloseError]
    with its close code, a value implementing [net.Error] (with what its
    [Temporary()] answers), and everything else. *)
Inductive goError : Type :=
| ErrCloseSent
| CloseError (code : Z) (text : string)
| NetError (temporary : bool) (text : string)
| OtherError (text : string).

(** An [error] interface value; [None] is [nil]. *)
Definition error : Type := option goError.

(** ** The world outside the adapter *)

(** What the adapter does to its collaborators, in order. *)
Inductive event : Type :=
| EvSince                                       (* time.Since(launchTime) *)
| EvRead (buflen : nat)                         (* net.Conn.Read(p) *)
| EvWrite (p : list byte)                       (* net.Conn.Write(p) *)
| EvSetLinger (sec : Z)                         (* SetLinger of a TCPConn *)
| EvClose                                       (* Close() of either transport *)
| EvReadMessage                                 (* websocket.Conn.ReadMessage *)
| EvWriteMessage (messageType : Z) (data : list byte)
| EvSetPingHandler
| EvSetPongHandler
| EvLogWarn (fmt : string) (arg : goError).     (* log.Warn(fmt, e) *)

(** Process-wide state: the package variables [launchTime] and [connID],
    the reading [time.Since(launchTime)] would give now, and the calls
    made on clock, transports and logger so far (oldest first). *)
Record World : Type := mkWorld {
  launchTime : Z;
  connID : Z;
  sinceLaunch : Z;
  trace : list event
}.

Definition set_connID (v : Z) (w : World) : World :=
  mkWorld (launchTime w) v (sinceLaunch w) (trace w).

Definition set_sinceLaunch (v : Z) (w : World) : World :=
  mkWorld (launchTime w) (connID w) v (trace w).

Definition emit (e : event) (w : World) : World :=
  mkWorld (launchTime w) (connID w) (sinceLaunch w) (trace w ++ [e]).

(** A world at process start: [connID] has Go's zero value. *)
Definition initWorld (launch : Z) : World := mkWorld launch 0 0 [].

(** ** State-and-panic monad *)

Inductive outcome (A : Type) : Type :=
| Return (a : A)
| Panic (msg : string).
Arguments Return {A} a.
Arguments Panic {A} msg.

(** A receiver of type [T] together with the world. *)
Record Obj (T : Type) : Type := mkObj { self : T; world : World }.
Arguments mkObj {T} self world.
Arguments self {T} o.
Arguments world {T} o.

Definition M (S A : Type) : Type := S -> outcome A * S.

Definition ret {S A} (a : A) : M S A := fun s => (Return a, s).

Definition bind {S A B} (m : M S A) (k : A -> M S B) : M S B :=
  fun s =>
    match m s with
    | (Return a, s') => k a s'
    | (Panic msg, s') => (Panic msg, s')
    end.

Definition panic {S A} (msg : string) : M S A := fun s => (Panic msg, s).

Definition gets {S A} (f : S -> A) : M S A := fun s => (Return (f s), s).

Definition modify {S} (f : S -> S) : M S unit := fun s => (Return tt, f s).

Declare Scope go_scope.
Delimit Scope go_scope with go.
Notation "x <- m ;; k" := (bind m (fun x => k))
  (at level 61, m at next level, right associativity) : go_scope.
Notation "m ;;; k" := (bind m (fun _ => k))
  (at level 61, right associativity) : go_scope.
Local Open Scope go_scope.

Definition getSelf {T} : M (Obj T) T := gets self.
Definition modSelf {T} (f : T -> T) : M (Obj T) unit :=
  modify (fun o => mkObj (f (self o)) (world o)).
Definition getWorld {T} : M (Obj T) World := gets world.
Definition modWorld {T} (f : World -> World) : M (Obj T) unit :=
  modify (fun o => mkObj (self o) (f (world o))).

(** A call on a collaborator: it is recorded in the trace, and what it
    answers may depend on everything that happened before it. *)
Definition call {T A} (ev : event) (answer : list event -> A) : M (Obj T) A :=
  w <- getWorld ;;
  modWorld (emit ev) ;;;
  ret (answer (trace w)).

(** A method of an embedded struct, run on the struct that embeds it. *)
Definition promoted {S T A} (proj : T -> S) (upd : S -> T -> T)
    (m : M (Obj S) A) : M (Obj T) A :=
  fun o =>
    match m (mkObj (proj (self o)) (world o)) with
    | (r, o') => (r, mkObj (upd (self o') (self o)) (world o'))
    end.

(** ** gettyConn *)

Record gettyConn : Type := mkGettyConn {
  ID : Z;              (* uint32 *)
  padding : Z;         (* uint32 *)
  readCount : Z;       (* uint32 *)
  writeCount : Z;      (* uint32 *)
  readPkgCount : Z;    (* uint32 *)
  writePkgCount : Z;   (* uint32 *)
  active : Z;          (* int64 *)
  rDeadline : Z;       (* time.Duration, an int64 *)
  wDeadline : Z;       (* time.Duration, an int64 *)
  local : string;
  peer : string
}.

(** The composite literal [gettyConn{ID: id, local: l, peer: p}]. *)
Definition newGettyConn (id : Z) (l p : string) : gettyConn :=
  mkGettyConn id 0 0 0 0 0 0 0 0 l p.

Definition set_readCount (v : Z) (c : gettyConn) : gettyConn :=
  mkGettyConn (ID c) (padding c) v (writeCount c) (readPkgCount c)
    (writePkgCount c) (active c) (rDeadline c) (wDeadline c) (local c) (peer c).

Definition set_writeCount (v : Z) (c : gettyConn) : gettyConn :=
  mkGettyConn (ID c) (padding c) (readCount c) v (readPkgCount c)
    (writePkgCount c) (active c) (rDeadline c) (wDeadline c) (local c) (peer c).

Definition set_readPkgCount (v : Z) (c : gettyConn) : gettyConn :=
  mkGettyConn (ID c) (padding c) (readCount c) (writeCount c) v
    (writePkgCount c) (active c) (rDeadline c) (wDeadline c) (local c) (peer c).

Definition set_writePkgCount (v : Z) (c : gettyConn) : gettyConn :=
  mkGettyConn (ID c) (padding c) (readCount c) (writeCount c) (readPkgCount c)
    v (active c) (rDeadline c) (wDeadline c) (local c) (peer c).

Definition set_active (v : Z) (c : gettyConn) : gettyConn :=
  mkGettyConn (ID c) (padding c) (readCount c) (writeCount c) (readPkgCount c)
    (writePkgCount c) v (rDeadline c) (wDeadline c) (local c) (peer c).

Definition set_rDeadline (v : Z) (c : gettyConn) : gettyConn :=
  mkGettyConn (ID c) (padding c) (readCount c) (writeCount c) (readPkgCount c)
    (writePkgCount c) (active c) v (wDeadline c) (local c) (peer c).

Definition set_wDeadline (v : Z) (c : gettyConn) : gettyConn :=
  mkGettyConn (ID c) (padding c) (readCount c) (writeCount c) (readPkgCount c)
    (writePkgCount c) (active c) (rDeadline c) v (local c) (peer c).

Definition incReadPkgCount : M (Obj gettyConn) unit :=
  modSelf (fun c => set_readPkgCount (AddUint32 (readPkgCount c) 1) c).

Definition incWritePkgCount : M (Obj gettyConn) unit :=
  modSelf (fun c => set_writePkgCount (AddUint32 (writePkgCount c) 1) c).

(** [atomic.StoreInt64(&this.active, int64(time.Since(launchTime)))] *)
Definition updateActive : M (Obj gettyConn) unit :=
  w <- getWorld ;;
  elapsed <- call EvSince (fun _ => sinceLaunch w) ;;
  modSelf (set_active (int64 elapsed)).

(** [launchTime.Add(time.Duration(this.active))], times in nanoseconds. *)
Definition getActive : M (Obj gettyConn) Z :=
  w <- getWorld ;;
  c <- getSelf ;;
  ret (launchTime w + active c).

Definition readDeadline : M (Obj gettyConn) Z :=
  c <- getSelf ;; ret (rDeadline c).

Definition setReadDeadline (d : Z) : M (Obj gettyConn) unit :=
  (if d <? 1 then panic "@rDeadline < 1" else ret tt) ;;;
  modSelf (set_rDeadline d) ;;;
  c <- getSelf ;;
  if wDeadline c =? 0 then modSelf (set_wDeadline d) else ret tt.

Definition writeDeadline : M (Obj gettyConn) Z :=
  c <- getSelf ;; ret (wDeadline c).

Definition setWriteDeadline (d : Z) : M (Obj gettyConn) unit :=
  (if d <? 1 then panic "@wDeadline < 1" else ret tt) ;;;
  modSelf (set_wDeadline d).

(** The embedded struct's own [write] and [close] do nothing; both
    adapters put their own in front of them. *)
Definition write (p : list byte) : M (Obj gettyConn) error := ret None.

Definition close (waitSec : Z) : M (Obj gettyConn) unit := ret tt.

(** ** Identity generator *)

(** [atomic.AddUint32(&connID, 1)], as both constructors call it. *)
Definition nextConnID : M World Z :=
  fun w =>
    let v := AddUint32 (connID w) 1 in
    (Return v, set_connID v w).

(** Goroutines calling the generator concurrently: the atomic add is one
    indivisible step, so an execution is the order in which the callers'
    adds take effect.  [sched] lists the callers in that order; the result
    pairs each caller with the identity it got. *)
Fixpoint nextConnIDs (sched : list nat) : M World (list (nat * Z)) :=
  match sched with
  | [] => ret []
  | g :: rest =>
      v <- nextConnID ;;
      vs <- nextConnIDs rest ;;
      ret ((g, v) :: vs)
  end.

(** The identities handed out along a schedule, from a fresh process. *)
Definition identities (sched : list nat) : list Z :=
  match fst (nextConnIDs sched (initWorld 0)) with
  | Return l => map snd l
  | Panic _ => []
  end.

(** ** Transports *)

(** Go's run-time panics met in conn.go. *)
Definition nilDereference : string :=
  "runtime error: invalid memory address or nil pointer dereference".
Definition badConversion : string :=
  "interface conversion: net.Conn is not *net.TCPConn".

(** A non-nil [net.Conn]: whether its dynamic type is [*net.TCPConn], what
    its address accessors report ([None] for a nil [net.Addr]), and what
    its methods answer. *)
Record NetConn : Type := mkNetConn {
  isTCPConn : bool;
  connLocalAddr : option string;
  connRemoteAddr : option string;
  connRead : list event -> nat -> Z * error;
  connWrite : list event -> list byte -> Z * error;
  connSetLinger : list event -> Z -> error;
  connClose : list event -> error
}.

(** gorilla/websocket's message types and close code (RFC 6455). *)
Definition BinaryMessage : Z := 2.
Definition CloseMessage : Z := 8.
Definition PingMessage : Z := 9.
Definition PongMessage : Z := 10.
Definition CloseGoingAway : Z := 1001.

(** [websocket.IsUnexpectedCloseError(err, expectedCodes...)]: [err] is a
    close error whose code is none of the expected ones. *)
Definition IsUnexpectedCloseError (err : error) (expectedCodes : list Z) : bool :=
  match err with
  | Some (CloseError code _) => negb (existsb (Z.eqb code) expectedCodes)
  | _ => false
  end.
Arguments IsUnexpectedCloseError : simpl never.

(** A non-nil [*websocket.Conn]; [underlyingIsTCP] tells whether
    [UnderlyingConn()] has dynamic type [*net.TCPConn]. *)
Record WSConn : Type := mkWSConn {
  underlyingIsTCP : bool;
  wsLocalAddr : option string;
  wsRemoteAddr : option string;
  wsReadMessage : list event -> Z * list byte * error;
  wsWriteMessage : list event -> Z -> list byte -> error;
  wsSetLinger : list event -> Z -> error;
  wsClose : list event -> error
}.

Definition addrString (a : option string) : string :=
  match a with
  | Some s => s
  | None => EmptyString
  end.

(** ** gettyTCPConn *)

Module TCP.

Record gettyTCPConn : Type := mkGettyTCPConn {
  base : gettyConn;           (* the embedded gettyConn *)
  conn : option NetConn       (* net.Conn, [None] when nil *)
}.

Definition set_base (g : gettyConn) (t : gettyTCPConn) : gettyTCPConn :=
  mkGettyTCPConn g (conn t).

Definition set_conn (c : option NetConn) (t : gettyTCPConn) : gettyTCPConn :=
  mkGettyTCPConn (base t) c.

Definition onBase {A} (m : M (Obj gettyConn) A) : M (Obj gettyTCPConn) A :=
  promoted base set_base m.

Definition newGettyTCPConn (conn : option NetConn) : M World gettyTCPConn :=
  match conn with
  | None => panic "newGettyTCPConn(conn):@conn is nil"
  | Some c =>
      let localAddr := addrString (connLocalAddr c) in
      let peerAddr := addrString (connRemoteAddr c) in
      id <- nextConnID ;;
      ret (mkGettyTCPConn (newGettyConn id localAddr peerAddr) (Some c))
  end.

Definition read (p : list byte) : M (Obj gettyTCPConn) (Z * error) :=
  t <- getSelf ;;
  match conn t with
  | None => panic nilDereference
  | Some c =>
      r <- call (EvRead (List.length p)) (fun h => connRead c h (List.length p)) ;;
      let (l, e) := r in
      modSelf (fun t =>
        set_base (set_readCount (AddUint32 (readCount (base t)) (uint32 l))
                    (base t)) t) ;;;
      ret (l, e)
  end.

Definition write (p : list byte) : M (Obj gettyTCPConn) error :=
  modSelf (fun t =>
    set_base (set_writeCount
                (AddUint32 (writeCount (base t)) (uint32 (Z.of_nat (List.length p))))
                (base t)) t) ;;;
  t <- getSelf ;;
  match conn t with
  | None => panic nilDereference
  | Some c =>
      r <- call (EvWrite p) (fun h => connWrite c h p) ;;
      let (_, err) := r in
      ret err
  end.

Definition close (waitSec : Z) : M (Obj gettyTCPConn) unit :=
  t <- getSelf ;;
  match conn t with
  | None => ret tt
  | Some c =>
      (if isTCPConn c then ret tt else panic badConversion) ;;;
      _ <- call (EvSetLinger waitSec) (fun h => connSetLinger c h waitSec) ;;
      _ <- call EvClose (connClose c) ;;
      modSelf (set_conn None)
  end.

End TCP.

(** ** gettyWSConn *)

Module WS.

Record gettyWSConn : Type := mkGettyWSConn {
  base : gettyConn;           (* the embedded gettyConn *)
  conn : WSConn               (* *websocket.Conn, never nil once built *)
}.

Definition set_base (g : gettyConn) (t : gettyWSConn) : gettyWSConn :=
  mkGettyWSConn g (conn t).

Definition onBase {A} (m : M (Obj gettyConn) A) : M (Obj gettyWSConn) A :=
  promoted base set_base m.

Definition newGettyWSConn (conn : option WSConn) : M World gettyWSConn :=
  match conn with
  | None => panic "newGettyWSConn(conn):@conn is nil"
  | Some c =>
      let localAddr := addrString (wsLocalAddr c) in
      let peerAddr := addrString (wsRemoteAddr c) in
      id <- nextConnID ;;
      modify (emit EvSetPingHandler) ;;;
      modify (emit EvSetPongHandler) ;;;
      ret (mkGettyWSConn (newGettyConn id localAddr peerAddr) c)
  end.

(** [err.(net.Error)] followed by [e.Temporary()]. *)
Definition isTemporary (err : error) : bool :=
  match err with
  | Some (NetError temporary _) => temporary
  | _ => false
  end.

Definition isErrCloseSent (err : error) : bool :=
  match err with
  | Some ErrCloseSent => true
  | _ => false
  end.

Definition isNil (err : error) : bool :=
  match err with
  | None => true
  | Some _ => false
  end.

Definition handlePing (message : string) : M (Obj gettyWSConn) error :=
  t <- getSelf ;;
  err <- call (EvWriteMessage PongMessage (list_byte_of_string message))
              (fun h => wsWriteMessage (conn t) h PongMessage
                          (list_byte_of_string message)) ;;
  let err :=
    if isErrCloseSent err then None
    else if isTemporary err then None
    else err in
  (if isNil err then onBase updateActive else ret tt) ;;;
  ret err.

Definition handlePong (message : string) : M (Obj gettyWSConn) error :=
  onBase updateActive ;;;
  ret None.

Definition read : M (Obj gettyWSConn) (list byte * error) :=
  t <- getSelf ;;
  r <- call EvReadMessage (wsReadMessage (conn t)) ;;
  let '(_, b, e) := r in
  match e with
  | None =>
      modSelf (fun t =>
        set_base (set_readPkgCount (AddUint32 (readPkgCount (base t)) 1)
                    (base t)) t)
  | Some e' =>
      if IsUnexpectedCloseError e [CloseGoingAway]
      then modWorld (emit (EvLogWarn "websocket unexpected close error: %v" e'))
      else ret tt
  end ;;;
  ret (b, e).

Definition write (p : list byte) : M (Obj gettyWSConn) error :=
  modSelf (fun t =>
    set_base (set_writeCount
                (AddUint32 (writeCount (base t)) (uint32 (Z.of_nat (List.length p))))
                (base t)) t) ;;;
  t <- getSelf ;;
  call (EvWriteMessage BinaryMessage p)
       (fun h => wsWriteMessage (conn t) h BinaryMessage p).

Definition writePing : M (Obj gettyWSConn) error :=
  t <- getSelf ;;
  call (EvWriteMessage PingMessage [])
       (fun h => wsWriteMessage (conn t) h PingMessage []).

Definition farewell : list byte := list_byte_of_string "bye-bye!!!".

Definition close (waitSec : Z) : M (Obj gettyWSConn) unit :=
  t <- getSelf ;;
  _ <- call (EvWriteMessage CloseMessage farewell)
            (fun h => wsWriteMessage (conn t) h CloseMessage farewell) ;;
  (if underlyingIsTCP (conn t) then ret tt else panic badConversion) ;;;
  _ <- call (EvSetLinger waitSec) (fun h => wsSetLinger (conn t) h waitSec) ;;
  _ <- call EvClose (wsClose (conn t)) ;;
  ret tt.

End WS.

(** ** The iConn interface *)

(** What [iConn] asks of a connection; [gettyConn] supplies all of it, and
    each adapter takes the promoted methods and replaces [write] and
    [close]. *)
Class iConn (T : Type) : Type := {
  iIncReadPkgCount : M (Obj T) unit;
  iIncWritePkgCount : M (Obj T) unit;
  iUpdateActive : M (Obj T) unit;
  iGetActive : M (Obj T) Z;
  iReadDeadline : M (Obj T) Z;
  iSetReadDeadline : Z -> M (Obj T) unit;
  iWriteDeadline : M (Obj T) Z;
  iSetWriteDeadline : Z -> M (Obj T) unit;
  iWrite : list byte -> M (Obj T) error;
  iClose : Z -> M (Obj T) unit
}.

#[export] Instance gettyConn_iConn : iConn gettyConn := {
  iIncReadPkgCount := incReadPkgCount;
  iIncWritePkgCount := incWritePkgCount;
  iUpdateActive := updateActive;
  iGetActive := getActive;
  iReadDeadline := readDeadline;
  iSetReadDeadline := setReadDeadline;
  iWriteDeadline := writeDeadline;
  iSetWriteDeadline := setWriteDeadline;
  iWrite := write;
  iClose := close
}.

#[export] Instance gettyTCPConn_iConn : iConn TCP.gettyTCPConn := {
  iIncReadPkgCount := TCP.onBase incReadPkgCount;
  iIncWritePkgCount := TCP.onBase incWritePkgCount;
  iUpdateActive := TCP.onBase updateActive;
  iGetActive := TCP.onBase getActive;
  iReadDeadline := TCP.onBase readDeadline;
  iSetReadDeadline := fun d => TCP.onBase (setReadDeadline d);
  iWriteDeadline := TCP.onBase writeDeadline;
  iSetWriteDeadline := fun d => TCP.onBase (setWriteDeadline d);
  iWrite := TCP.write;
  iClose := TCP.close
}.

#[export] Instance gettyWSConn_iConn : iConn WS.gettyWSConn := {
  iIncReadPkgCount := WS.onBase incReadPkgCount;
  iIncWritePkgCount := WS.onBase incWritePkgCount;
  iUpdateActive := WS.onBase updateActive;
  iGetActive := WS.onBase getActive;
  iReadDeadline := WS.onBase readDeadline;
  iSetReadDeadline := fun d => WS.onBase (setReadDeadline d);
  iWriteDeadline := WS.onBase writeDeadline;
  iSetWriteDeadline := fun d => WS.onBase (setWriteDeadline d);
  iWrite := WS.write;
  iClose := WS.close
}.

(** ** Running methods *)

(** The state a computation leaves, and what it gives back. *)
Definition exec {S A} (m : M S A) (s : S) : S := snd (m s).
Definition result {S A} (m : M S A) (s : S) : outcome A := fst (m s).

(** One moment in the life of a [gettyConn]: the clock reaches a new
    reading, the activity time is updated, or it is read. *)
Inductive activityOp : Type :=
| Tick (reading : Z)
| Update
| Get.

(** Runs the operations in order and collects what [getActive] returned. *)
Fixpoint activityRun (ops : list activityOp) : M (Obj gettyConn) (list Z) :=
  match ops with
  | [] => ret []
  | Tick r :: rest => modWorld (set_sinceLaunch r) ;;; activityRun rest
  | Update :: rest => updateActive ;;; activityRun rest
  | Get :: rest =>
      v <- getActive ;;
      vs <- activityRun rest ;;
      ret (v :: vs)
  end.

(** The readings of [time.Since(launchTime)] never go back, and each is a
    [time.Duration]. *)
Fixpoint clockNonDecreasing (from : Z) (ops : list activityOp) : Prop :=
  match ops with
  | [] => True
  | Tick r :: rest => from <= r <= maxInt64 /\ clockNonDecreasing r rest
  | _ :: rest => clockNonDecreasing from rest
  end.

(** Calls of the stream adapter's [read] and [write], one after another. *)
Inductive streamOp : Type :=
| DoRead (p : list byte)
| DoWrite (p : list byte).

Inductive streamResult : Type :=
| ReadResult (l : Z) (e : error)
| WriteResult (e : error).

Fixpoint streamRun (ops : list streamOp)
    : M (Obj TCP.gettyTCPConn) (list streamResult) :=
  match ops with
  | [] => ret []
  | DoRead p :: rest =>
      r <- TCP.read p ;;
      rs <- streamRun rest ;;
      ret (ReadResult (fst r) (snd r) :: rs)
  | DoWrite p :: rest =>
      e <- TCP.write p ;;
      rs <- streamRun rest ;;
      ret (WriteResult e :: rs)
  end.

(** The byte counts [read] returned, and the payload sizes given to
    [write], summed. *)
Fixpoint bytesRead (rs : list streamResult) : Z :=
  match rs with
  | [] => 0
  | ReadResult l _ :: rest => l + bytesRead rest
  | WriteResult _ :: rest => bytesRead rest
  end.

Fixpoint bytesOffered (ops : list streamOp) : Z :=
  match ops with
  | [] => 0
  | DoRead _ :: rest => bytesOffered rest
  | DoWrite p :: rest => Z.of_nat (List.length p) + bytesOffered rest
  end.

(** [n] calls of the message adapter's [read], one after another. *)
Fixpoint messageReads (n : nat)
    : M (Obj WS.gettyWSConn) (list (list byte * error)) :=
  match n with
  | O => ret []
  | S n' =>
      r <- WS.read ;;
      rs <- messageReads n' ;;
      ret (r :: rs)
  end.

Definition succeeded (r : list byte * error) : bool := WS.isNil (snd r).

(** How often a transport was closed, and which linger values were set. *)
Definition isClose (e : event) : bool :=
  match e with
  | EvClose => true
  | _ => false
  end.

Definition closeCount (tr : list event) : nat :=
  List.length (filter isClose tr).

Fixpoint lingerValues (tr : list event) : list Z :=
  match tr with
  | [] => []
  | EvSetLinger sec :: rest => sec :: lingerValues rest
  | _ :: rest => lingerValues rest
  end.

(** ** Calls through the whole method set *)

(** The methods [gettyConn] gives to both adapters. *)
Inductive baseMethod : Type :=
| IncReadPkgCount
| IncWritePkgCount
| UpdateActive
| GetActive
| ReadDeadline
| SetReadDeadline (d : Z)
| WriteDeadline
| SetWriteDeadline (d : Z).

Definition baseCall (m : baseMethod) : M (Obj gettyConn) unit :=
  match m with
  | IncReadPkgCount => incReadPkgCount
  | IncWritePkgCount => incWritePkgCount
  | UpdateActive => updateActive
  | GetActive => _ <- getActive ;; ret tt
  | ReadDeadline => _ <- readDeadline ;; ret tt
  | SetReadDeadline d => setReadDeadline d
  | WriteDeadline => _ <- writeDeadline ;; ret tt
  | SetWriteDeadline d => setWriteDeadline d
  end.

(** Every method callable on a [*gettyTCPConn]. *)
Inductive streamMethod : Type :=
| StreamBase (m : baseMethod)
| StreamRead (p : list byte)
| StreamWrite (p : list byte)
| StreamClose (waitSec : Z).

Definition streamCall (m : streamMethod) : M (Obj TCP.gettyTCPConn) unit :=
  match m with
  | StreamBase b => TCP.onBase (baseCall b)
  | StreamRead p => _ <- TCP.read p ;; ret tt
  | StreamWrite p => _ <- TCP.write p ;; ret tt
  | StreamClose waitSec => TCP.close waitSec
  end.

(** Every method callable on a [*gettyWSConn]. *)
Inductive messageMethod : Type :=
| MessageBase (m : baseMethod)
| MessageHandlePing (message : string)
| MessageHandlePong (message : string)
| MessageRead
| MessageWrite (p : list byte)
| MessageWritePing
| MessageClose (waitSec : Z).

Definition messageCall (m : messageMethod) : M (Obj WS.gettyWSConn) unit :=
  match m with
  | MessageBase b => WS.onBase (baseCall b)
  | MessageHandlePing message => _ <- WS.handlePing message ;; ret tt
  | MessageHandlePong message => _ <- WS.handlePong message ;; ret tt
  | MessageRead => _ <- WS.read ;; ret tt
  | MessageWrite p => _ <- WS.write p ;; ret tt
  | MessageWritePing => _ <- WS.writePing ;; ret tt
  | MessageClose waitSec => WS.close waitSec
  end.

(** Calls made one after another, each at its own clock reading; a panic
    ends the run where it happens. *)
Fixpoint runCalls {T X : Type} (invoke : X -> M (Obj T) unit)
    (cs : list (Z * X)) : M (Obj T) unit :=
  match cs with
  | [] => ret tt
  | (now, x) :: rest =>
      modWorld (set_sinceLaunch now) ;;;
      invoke x ;;;
      runCalls invoke rest
  end.

(** The same call made [n] times. *)
Fixpoint times {S : Type} (n : nat) (m : M S unit) : M S unit :=
  match n with
  | O => ret tt
  | S n' => m ;;; times n' m
  end.


(** Adapters built one after another, over stream or message handles that
    may be nil; the result lists the identities they were given. *)
Definition build (h : option NetConn + option WSConn) : M World Z :=
  match h with
  | inl c => t <- TCP.newGettyTCPConn c ;; ret (ID (TCP.base t))
  | inr c => t <- WS.newGettyWSConn c ;; ret (ID (WS.base t))
  end.

Fixpoint buildAll (hs : list (option NetConn + option WSConn))
    : M World (list Z) :=
  match hs with
  | [] => ret []
  | h :: rest =>
      id <- build h ;;
      ids <- buildAll rest ;;
      ret (id :: ids)
  end.

Definition present (h : option NetConn + option WSConn) : bool :=
  match h with
  | inl (Some _) => true
  | inr (Some _) => true
  | _ => false
  end.

(** The calls in a trace that reached a transport (not the clock, not the
    logger). *)
Definition isTransportCall (e : event) : bool :=
  match e with
  | EvSince => false
  | EvLogWarn _ _ => false
  | _ => true
  end.

Definition transportCalls (tr : list event) : list event :=
  filter isTransportCall tr.

(** What a stream [read] or [write] asks of the transport. *)
Definition streamEvent (op : streamOp) : event :=
  match op with
  | DoRead p => EvRead (List.length p)
  | DoWrite p => EvWrite p
  end.

(** What the transport answers to a run of stream reads and writes, each
    answer depending on the calls made before it. *)
Fixpoint transportAnswers (c : NetConn) (h : list event) (ops : list streamOp)
    : list streamResult :=
  match ops with
  | [] => []
  | DoRead p :: rest =>
      ReadResult (fst (connRead c h (List.length p)))
                 (snd (connRead c h (List.length p)))
      :: transportAnswers c (h ++ [EvRead (List.length p)]) rest
  | DoWrite p :: rest =>
      WriteResult (snd (connWrite c h p))
      :: transportAnswers c (h ++ [EvWrite p]) rest
  end.




(** Pings handed to the message adapter's handler, one after another. *)
Fixpoint pings (messages : list string)
    : M (Obj WS.gettyWSConn) (list error) :=
  match messages with
  | [] => ret []
  | message :: rest =>
      e <- WS.handlePing message ;;
      es <- pings rest ;;
      ret (e :: es)
  end.

(** The pong frame that answers a ping. *)
Definition pongFor (message : string) : event :=
  EvWriteMessage PongMessage (list_byte_of_string message).

(** The four traffic counters of a [gettyConn]. *)
Definition counters (g : gettyConn) : Z * Z * Z * Z :=
  (readCount g, writeCount g, readPkgCount g, writePkgCount g).

(** Deadline setters called one after another through the interface. *)
Inductive deadlineCall : Type :=
| SetRead (d : Z)
| SetWrite (d : Z).

Definition deadlineValue (c : deadlineCall) : Z :=
  match c with
  | SetRead d => d
  | SetWrite d => d
  end.

Fixpoint setDeadlines {T : Type} `{iConn T} (cs : list deadlineCall)
    : M (Obj T) unit :=
  match cs with
  | [] => ret tt
  | SetRead d :: rest => iSetReadDeadline d ;;; setDeadlines rest
  | SetWrite d :: rest => iSetWriteDeadline d ;;; setDeadlines rest
  end.

(** Both getters, read after the setters. *)
Definition deadlinesAfter {T : Type} `{iConn T} (cs : list deadlineCall)
    : M (Obj T) (Z * Z) :=
  setDeadlines cs ;;;
  r <- iReadDeadline ;;
  x <- iWriteDeadline ;;
  ret (r, x).

(** The value of the first read setter, of the last read setter and of
    the last write setter in a list of calls. *)
Fixpoint firstSetRead (cs : list deadlineCall) : option Z :=
  match cs with
  | [] => None
  | SetRead d :: _ => Some d
  | SetWrite _ :: rest => firstSetRead rest
  end.

Fixpoint lastSetRead (cs : list deadlineCall) : option Z :=
  match cs with
  | [] => None
  | SetRead d :: rest =>
      match lastSetRead rest with
      | Some d' => Some d'
      | None => Some d
      end
  | SetWrite _ :: rest => lastSetRead rest
  end.

Fixpoint lastSetWrite (cs : list deadlineCall) : option Z :=
  match cs with
  | [] => None
  | SetWrite d :: rest =>
      match lastSetWrite rest with
      | Some d' => Some d'
      | None => Some d
      end
  | SetRead _ :: rest => lastSetWrite rest
  end.

Definition orZero (v : option Z) : Z :=
  match v with
  | Some d => d
  | None => 0
  end.

(** The fields of a [gettyConn] hold values of their Go types, and a read
    deadline is never set while the write deadline is unset. *)
Definition wellFormed (g : gettyConn) : Prop :=
  0 <= ID g < 2 ^ 32 /\
  0 <= readCount g < 2 ^ 32 /\
  0 <= writeCount g < 2 ^ 32 /\
  0 <= readPkgCount g < 2 ^ 32 /\
  0 <= writePkgCount g < 2 ^ 32 /\
  minInt64 <= active g <= maxInt64 /\
  0 <= rDeadline g /\
  0 <= wDeadline g /\
  (rDeadline g <> 0 -> wDeadline g <> 0).

(** ** Sample inputs *)

(** One goroutine calling the generator [2 ^ 32 + 1] times. *)
Definition wrapSchedule : list nat := repeat 0%nat (Z.to_nat (2 ^ 32 + 1)).

(** A freshly built [gettyConn] with identity 1, in a process launched at
    time 100. *)
Definition freshConn : gettyConn := newGettyConn 1 "127.0.0.1:8080" "".
Definition freshWorld : World := initWorld 100.

(** A TCP connection whose peer has gone: reads hit end of file after 3
    bytes, writes fail, closing reports an error. *)
Definition tcpSample : NetConn :=
  mkNetConn true (Some "10.0.0.1:4000"%string) (Some "10.0.0.2:80"%string)
    (fun _ _ => (3, Some (OtherError "EOF")))
    (fun _ _ => (0, Some (OtherError "broken pipe")))
    (fun _ _ => None)
    (fun _ => Some (OtherError "use of closed network connection")).

(** An in-memory pipe: a [net.Conn] that is not a [*net.TCPConn] and has
    no addresses to report. *)
Definition pipeSample : NetConn :=
  mkNetConn false None None
    (fun _ n => (Z.of_nat n, None))
    (fun _ p => (Z.of_nat (List.length p), None))
    (fun _ _ => None)
    (fun _ => None).

(** A websocket over plain TCP: the first message read succeeds, every
    later one fails with close code [code]; a write answers [sendErr]. *)
Definition wsSample (code : Z) (sendErr : error) : WSConn :=
  mkWSConn true (Some "10.0.0.1:4000"%string) (Some "10.0.0.2:80"%string)
    (fun h =>
       if existsb (fun e => match e with EvReadMessage => true | _ => false end) h
       then (-1, [], Some (CloseError code "closed"))
       else (2, ["h"%byte; "i"%byte], None))
    (fun _ _ _ => sendErr)
    (fun _ _ => Some (OtherError "setsockopt: bad file descriptor"))
    (fun _ => None).

(** A websocket over TLS: its underlying connection is a [*tls.Conn]. *)
Definition wssSample : WSConn :=
  mkWSConn false (Some "10.0.0.1:4000"%string) (Some "10.0.0.2:443"%string)
    (fun _ => (2, [], None))
    (fun _ _ _ => None)
    (fun _ _ => None)
    (fun _ => None).

(** * Properties *)

Ltac run_monad :=
  unfold exec, result, setReadDeadline, setWriteDeadline, updateActive,
    getActive, call, getSelf, getWorld, modSelf, modWorld, bind, ret, panic,
    gets, modify; simpl.

Lemma int64_id (z : Z) : minInt64 <= z <= maxInt64 -> int64 z = z.
Proof.
  unfold int64, minInt64, maxInt64. intros H.
  rewrite Z.mod_small; lia.
Qed.

Lemma uint32_range (z : Z) : 0 <= uint32 z < 2 ^ 32.
Proof. unfold uint32. apply Z.mod_pos_bound. lia. Qed.

Lemma uint32_id (z : Z) : 0 <= z < 2 ^ 32 -> uint32 z = z.
Proof. unfold uint32. intros H. apply Z.mod_small. exact H. Qed.

Lemma AddUint32_uint32 (a b : Z) : AddUint32 a (uint32 b) = uint32 (a + b).
Proof. unfold AddUint32, uint32. apply Zplus_mod_idemp_r. Qed.

(** ** Deadlines *)

Section Deadlines.

Variables (c : gettyConn) (w : World).

Let o := mkObj c w.

(** C4: with a positive [d], [setReadDeadline d] stores [d] as read
    deadline and, when the write deadline is still zero, as write deadline
    too; a write deadline already set is kept.  [setWriteDeadline d] stores
    [d] as write deadline and leaves the read deadline, and every other
    field, as it was. *)
Theorem deadline_backfill (d : Z) (Hd : 0 < d) :
  (wDeadline c = 0 ->
     setReadDeadline d o
     = (Return tt, mkObj (set_wDeadline d (set_rDeadline d c)) w)) /\
  (wDeadline c <> 0 ->
     setReadDeadline d o = (Return tt, mkObj (set_rDeadline d c) w)) /\
  setWriteDeadline d o = (Return tt, mkObj (set_wDeadline d c) w) /\
  rDeadline (self (exec (setReadDeadline d) o)) = d /\
  wDeadline (self (exec (setReadDeadline d) o))
  = (if wDeadline c =? 0 then d else wDeadline c) /\
  wDeadline (self (exec (setWriteDeadline d) o)) = d /\
  rDeadline (self (exec (setWriteDeadline d) o)) = rDeadline c.
Proof.
  assert (Hlt : (d <? 1) = false) by (apply Z.ltb_ge; lia).
  subst o. run_monad. rewrite Hlt. simpl.
  destruct (wDeadline c =? 0) eqn:Hw; simpl.
  - apply Z.eqb_eq in Hw. repeat split; congruence.
  - apply Z.eqb_neq in Hw. repeat split; congruence.
Qed.

(** C5: a deadline that is not strictly positive makes either setter
    panic, with the receiver and the world exactly as before the call; a
    strictly positive one makes neither panic. *)
Theorem deadline_invalid_argument (d : Z) :
  (d <= 0 ->
     setReadDeadline d o = (Panic "@rDeadline < 1", o) /\
     setWriteDeadline d o = (Panic "@wDeadline < 1", o)) /\
  (0 < d ->
     result (setReadDeadline d) o = Return tt /\
     result (setWriteDeadline d) o = Return tt).
Proof.
  subst o. split; intros H.
  - assert (Hlt : (d <? 1) = true) by (apply Z.ltb_lt; lia).
    run_monad. rewrite Hlt. split; reflexivity.
  - assert (Hlt : (d <? 1) = false) by (apply Z.ltb_ge; lia).
    run_monad. rewrite Hlt. simpl.
    destruct (wDeadline c =? 0); split; reflexivity.
Qed.

End Deadlines.

(** ** Activity time *)

Lemma activityRun_sorted (ops : list activityOp) :
  forall (c : gettyConn) (w : World),
    active c <= sinceLaunch w ->
    0 <= sinceLaunch w <= maxInt64 ->
    clockNonDecreasing (sinceLaunch w) ops ->
    exists vs o',
      activityRun ops (mkObj c w) = (Return vs, o') /\
      StronglySorted Z.le vs /\
      Forall (fun v => launchTime w + active c <= v) vs.
Proof.
  induction ops as [|op rest IH]; intros c w Hact Hclk Hmono.
  - exists [], (mkObj c w). repeat split; constructor.
  - destruct op as [r| |]; simpl in Hmono.
    + destruct Hmono as [Hr Hrest].
      destruct (IH c (set_sinceLaunch r w)) as (vs & o' & Hrun & Hs & Hb);
        simpl; try lia; try assumption.
      exists vs, o'. split; [|split; assumption].
      simpl. run_monad. exact Hrun.
    + assert (Hid : int64 (sinceLaunch w) = sinceLaunch w)
        by (apply int64_id; unfold minInt64; lia).
      destruct (IH (set_active (int64 (sinceLaunch w)) c) (emit EvSince w))
        as (vs & o' & Hrun & Hs & Hb); simpl;
        [rewrite Hid; lia | assumption | assumption |].
      exists vs, o'. split; [|split; [assumption|]].
      * simpl. run_monad. exact Hrun.
      * simpl in Hb. rewrite Hid in Hb.
        eapply Forall_impl; [|exact Hb]. simpl. intros v Hv. lia.
    + destruct (IH c w) as (vs & o' & Hrun & Hs & Hb); try assumption.
      exists ((launchTime w + active c) :: vs), o'. split; [|split].
      * simpl. run_monad. unfold bind in Hrun. simpl in Hrun.
        rewrite Hrun. reflexivity.
      * constructor; assumption.
      * constructor; [lia | assumption].
Qed.

(** C9: on one adapter whose stored activity is not ahead of the clock (as
    for a freshly built one), along any sequence of clock readings,
    [updateActive] calls and [getActive] calls in which the readings of
    [time.Since(launchTime)] never go back, [getActive] never panics and
    every value it returns is at least every value it returned earlier. *)
Theorem getActive_non_decreasing
    (c : gettyConn) (w : World) (ops : list activityOp) :
  active c <= sinceLaunch w ->
  0 <= sinceLaunch w <= maxInt64 ->
  clockNonDecreasing (sinceLaunch w) ops ->
  exists vs o',
    activityRun ops (mkObj c w) = (Return vs, o') /\
    StronglySorted Z.le vs.
Proof.
  intros Hact Hclk Hmono.
  destruct (activityRun_sorted ops c w Hact Hclk Hmono)
    as (vs & o' & Hrun & Hs & _).
  exists vs, o'. split; assumption.
Qed.

(** ** Identity generator *)

Lemma uint32_add_l (a b : Z) : uint32 (uint32 a + b) = uint32 (a + b).
Proof. unfold uint32. apply Zplus_mod_idemp_l. Qed.

(** The generator never panics; the [k]-th identity it hands out from a
    counter at [connID w] is that counter plus [k], in 32 bits. *)
Lemma nextConnIDs_closed_form (sched : list nat) :
  forall w : World,
  exists l w',
    nextConnIDs sched w = (Return l, w') /\
    map fst l = sched /\
    map snd l
    = map (fun k => uint32 (connID w + Z.of_nat k)) (seq 1 (List.length sched)).
Proof.
  induction sched as [|g rest IH]; intros w.
  - exists [], w. repeat split.
  - destruct (IH (set_connID (AddUint32 (connID w) 1) w))
      as (l & w' & Hrun & Hfst & Hsnd).
    exists ((g, AddUint32 (connID w) 1) :: l), w'. split; [|split].
    + simpl. unfold bind, nextConnID at 1. simpl.
      unfold bind in Hrun. rewrite Hrun. reflexivity.
    + simpl. now rewrite Hfst.
    + simpl. f_equal. rewrite Hsnd. simpl connID.
      rewrite <- (seq_shift (List.length rest) 1), map_map.
      apply map_ext. intros k.
      unfold AddUint32. rewrite uint32_add_l. f_equal. lia.
Qed.

Lemma identities_closed_form (sched : list nat) :
  identities sched
  = map (fun k => uint32 (Z.of_nat k)) (seq 1 (List.length sched)).
Proof.
  unfold identities.
  destruct (nextConnIDs_closed_form sched (initWorld 0))
    as (l & w' & Hrun & _ & Hsnd).
  rewrite Hrun. simpl fst. exact Hsnd.
Qed.

Lemma identities_nth (sched : list nat) (k : nat) :
  (k < List.length sched)%nat ->
  nth k (identities sched) 0 = uint32 (Z.of_nat k + 1).
Proof.
  intros Hk. rewrite identities_closed_form.
  change 0 with ((fun k => uint32 (Z.of_nat k)) 0%nat) at 1.
  rewrite map_nth, seq_nth by exact Hk. f_equal. lia.
Qed.

Lemma StronglySorted_lt_nth (l : list Z) :
  StronglySorted Z.lt l ->
  forall i j : nat, (i < j < List.length l)%nat -> nth i l 0 < nth j l 0.
Proof.
  induction 1 as [|a l' Hs IH Hall]; intros i j Hij; simpl in Hij.
  - lia.
  - destruct j as [|j']; [lia|]. destruct i as [|i']; simpl.
    + rewrite Forall_forall in Hall. apply Hall. apply nth_In. lia.
    + apply IH. lia.
Qed.

Lemma StronglySorted_lt_NoDup (l : list Z) :
  StronglySorted Z.lt l -> NoDup l.
Proof.
  induction 1 as [|a l' Hs IH Hall]; constructor; [|exact IH].
  intros Hin. rewrite Forall_forall in Hall. specialize (Hall a Hin). lia.
Qed.

Lemma range_sorted (n a : nat) :
  StronglySorted Z.lt (map Z.of_nat (seq a n)).
Proof.
  revert a. induction n as [|n IH]; intros a; simpl; constructor.
  - apply IH.
  - apply Forall_forall. intros v Hv.
    apply in_map_iff in Hv. destruct Hv as (k & <- & Hk).
    apply in_seq in Hk. lia.
Qed.

(** C1, amended: as long as fewer than [2 ^ 32] identities have been handed
    out, whatever the order in which concurrent callers reach the atomic
    add, the identities are 1, 2, ..., n in that order: they start at 1,
    increase strictly, are pairwise distinct and fill the range from 1 to
    n; each caller gets the identity of its own add. *)
Theorem identities_before_wrap (sched : list nat) :
  Z.of_nat (List.length sched) < 2 ^ 32 ->
  identities sched = map Z.of_nat (seq 1 (List.length sched)) /\
  (exists l w', nextConnIDs sched (initWorld 0) = (Return l, w') /\
                map fst l = sched /\ map snd l = identities sched) /\
  (sched <> [] -> hd_error (identities sched) = Some 1) /\
  StronglySorted Z.lt (identities sched) /\
  NoDup (identities sched) /\
  (forall v, In v (identities sched) <-> 1 <= v <= Z.of_nat (List.length sched)).
Proof.
  intros Hlen.
  assert (Heq : identities sched = map Z.of_nat (seq 1 (List.length sched))).
  { rewrite identities_closed_form. apply map_ext_in. intros k Hk.
    apply in_seq in Hk. apply uint32_id. lia. }
  split; [exact Heq|]. split; [|split; [|split; [|split]]].
  - destruct (nextConnIDs_closed_form sched (initWorld 0))
      as (l & w' & Hrun & Hfst & Hsnd).
    exists l, w'. split; [exact Hrun|]. split; [exact Hfst|].
    unfold identities. rewrite Hrun. reflexivity.
  - intros Hne. rewrite Heq. destruct sched as [|g rest]; [congruence|].
    reflexivity.
  - rewrite Heq. apply range_sorted.
  - rewrite Heq. apply StronglySorted_lt_NoDup, range_sorted.
  - intros v. rewrite Heq, in_map_iff. split.
    + intros (k & <- & Hk). apply in_seq in Hk. lia.
    + intros Hv. exists (Z.to_nat v). split; [lia|]. apply in_seq. lia.
Qed.

Lemma identities_length (sched : list nat) :
  List.length (identities sched) = List.length sched.
Proof. rewrite identities_closed_form, length_map, length_seq. reflexivity. Qed.

Lemma wrapSchedule_length : List.length wrapSchedule = Z.to_nat (2 ^ 32 + 1).
Proof. unfold wrapSchedule. apply repeat_length. Qed.

(** C1 fails once the 32-bit counter wraps: of [2 ^ 32 + 1] calls, the
    one before last returns 0, after 4294967295, and the last returns 1,
    which the first call returned already. *)
Lemma identities_wrap_around :
  nth 0 (identities wrapSchedule) 0 = 1 /\
  nth (Z.to_nat (2 ^ 32 - 2)) (identities wrapSchedule) 0 = 4294967295 /\
  nth (Z.to_nat (2 ^ 32 - 1)) (identities wrapSchedule) 0 = 0 /\
  nth (Z.to_nat (2 ^ 32)) (identities wrapSchedule) 0 = 1 /\
  ~ StronglySorted Z.lt (identities wrapSchedule) /\
  ~ NoDup (identities wrapSchedule).
Proof.
  assert (H0 : nth 0 (identities wrapSchedule) 0 = 1).
  { rewrite identities_nth by (rewrite wrapSchedule_length; lia).
    reflexivity. }
  assert (H1 : nth (Z.to_nat (2 ^ 32 - 2)) (identities wrapSchedule) 0
               = 4294967295).
  { rewrite identities_nth by (rewrite wrapSchedule_length; lia).
    rewrite Z2Nat.id by lia. reflexivity. }
  assert (H2 : nth (Z.to_nat (2 ^ 32 - 1)) (identities wrapSchedule) 0 = 0).
  { rewrite identities_nth by (rewrite wrapSchedule_length; lia).
    rewrite Z2Nat.id by lia. reflexivity. }
  assert (H3 : nth (Z.to_nat (2 ^ 32)) (identities wrapSchedule) 0 = 1).
  { rewrite identities_nth by (rewrite wrapSchedule_length; lia).
    rewrite Z2Nat.id by lia. reflexivity. }
  repeat (split; [assumption|]). split.
  - intros Hs.
    pose proof (StronglySorted_lt_nth _ Hs (Z.to_nat (2 ^ 32 - 2))
                  (Z.to_nat (2 ^ 32 - 1))) as Hlt.
    rewrite identities_length, wrapSchedule_length, H1, H2 in Hlt. lia.
  - intros Hnd. rewrite (NoDup_nth _ 0) in Hnd.
    specialize (Hnd 0%nat (Z.to_nat (2 ^ 32))).
    rewrite identities_length, wrapSchedule_length, H0, H3 in Hnd. lia.
Qed.

(** ** Stream adapter *)

Ltac run_stream :=
  unfold TCP.read, TCP.write, TCP.close, TCP.newGettyTCPConn, call,
    nextConnID, getSelf, getWorld, modSelf, modWorld, bind, ret, panic,
    gets, modify; simpl.

Section Stream.

Variables (g : gettyConn) (c : NetConn) (w : World).

(** The adapter with its handle in place, and after [close] cleared it. *)
Let live := mkObj (TCP.mkGettyTCPConn g (Some c)) w.
Let cleared := mkObj (TCP.mkGettyTCPConn g None) w.

Lemma stream_read_live (p : list byte) :
  TCP.read p live
  = (Return (connRead c (trace w) (List.length p)),
     mkObj (TCP.mkGettyTCPConn
              (set_readCount
                 (uint32 (readCount g
                          + fst (connRead c (trace w) (List.length p)))) g)
              (Some c))
           (emit (EvRead (List.length p)) w)).
Proof.
  subst live. run_stream.
  destruct (connRead c (trace w) (List.length p)) as [l e]. simpl.
  rewrite AddUint32_uint32. reflexivity.
Qed.

Lemma stream_write_live (p : list byte) :
  TCP.write p live
  = (Return (snd (connWrite c (trace w) p)),
     mkObj (TCP.mkGettyTCPConn
              (set_writeCount
                 (uint32 (writeCount g + Z.of_nat (List.length p))) g)
              (Some c))
           (emit (EvWrite p) w)).
Proof.
  subst live. run_stream.
  destruct (connWrite c (trace w) p) as [n err]. simpl.
  rewrite AddUint32_uint32. reflexivity.
Qed.

Lemma stream_write_cleared (p : list byte) :
  TCP.write p cleared
  = (Panic nilDereference,
     mkObj (TCP.mkGettyTCPConn
              (set_writeCount
                 (uint32 (writeCount g + Z.of_nat (List.length p))) g)
              None)
           w).
Proof.
  subst cleared. run_stream. rewrite AddUint32_uint32. reflexivity.
Qed.

End Stream.

Lemma streamRun_counters (ops : list streamOp) :
  forall (g : gettyConn) (c : NetConn) (w : World),
    0 <= readCount g < 2 ^ 32 ->
    0 <= writeCount g < 2 ^ 32 ->
    exists rs g' w',
      streamRun ops (mkObj (TCP.mkGettyTCPConn g (Some c)) w)
      = (Return rs, mkObj (TCP.mkGettyTCPConn g' (Some c)) w') /\
      readCount g' = uint32 (readCount g + bytesRead rs) /\
      writeCount g' = uint32 (writeCount g + bytesOffered ops) /\
      readPkgCount g' = readPkgCount g /\
      writePkgCount g' = writePkgCount g.
Proof.
  induction ops as [|op rest IH]; intros g c w Hr Hw.
  - exists [], g, w. simpl. rewrite !Z.add_0_r, !uint32_id by assumption.
    repeat split.
  - destruct op as [p|p].
    + destruct (IH (set_readCount
                      (uint32 (readCount g
                               + fst (connRead c (trace w) (List.length p)))) g)
                   c (emit (EvRead (List.length p)) w))
        as (rs & g' & w' & Hrun & Hrc & Hwc & Hrp & Hwp);
        [apply uint32_range | exact Hw |].
      exists (ReadResult (fst (connRead c (trace w) (List.length p)))
                         (snd (connRead c (trace w) (List.length p))) :: rs),
             g', w'.
      split; [|repeat split].
      * simpl. unfold bind at 1. rewrite stream_read_live.
        unfold bind at 1. rewrite Hrun. reflexivity.
      * rewrite Hrc. simpl. rewrite uint32_add_l. f_equal. lia.
      * exact Hwc.
      * exact Hrp.
      * exact Hwp.
    + destruct (IH (set_writeCount
                      (uint32 (writeCount g + Z.of_nat (List.length p))) g)
                   c (emit (EvWrite p) w))
        as (rs & g' & w' & Hrun & Hrc & Hwc & Hrp & Hwp);
        [exact Hr | apply uint32_range |].
      exists (WriteResult (snd (connWrite c (trace w) p)) :: rs), g', w'.
      split; [|repeat split].
      * simpl. unfold bind at 1. rewrite stream_write_live.
        unfold bind at 1. rewrite Hrun. reflexivity.
      * exact Hrc.
      * rewrite Hwc. simpl. rewrite uint32_add_l. f_equal. lia.
      * exact Hrp.
      * exact Hwp.
Qed.

(** C6: on the stream adapter, [read] hands back exactly what the
    transport's [Read] answered and adds the byte count it answered to
    [readCount] (in 32 bits), whether or not an error came with it; [write]
    adds the payload's length to [writeCount] first, then calls the
    transport's [Write] and hands back its error as it is, so the count
    has moved even when the call cannot be made on a cleared handle.
    Neither touches [readPkgCount] or [writePkgCount]: after any sequence
    of reads and writes on a newly built adapter both are 0, [readCount] is
    the sum of the byte counts returned and [writeCount] the sum of the
    payload sizes; writes of 10, 20 and 30 bytes leave [writeCount] at 60. *)
Theorem stream_byte_counters
    (g : gettyConn) (c : NetConn) (w : World) (p : list byte) :
  TCP.read p (mkObj (TCP.mkGettyTCPConn g (Some c)) w)
  = (Return (connRead c (trace w) (List.length p)),
     mkObj (TCP.mkGettyTCPConn
              (set_readCount
                 (uint32 (readCount g
                          + fst (connRead c (trace w) (List.length p)))) g)
              (Some c))
           (emit (EvRead (List.length p)) w)) /\
  TCP.write p (mkObj (TCP.mkGettyTCPConn g (Some c)) w)
  = (Return (snd (connWrite c (trace w) p)),
     mkObj (TCP.mkGettyTCPConn
              (set_writeCount
                 (uint32 (writeCount g + Z.of_nat (List.length p))) g)
              (Some c))
           (emit (EvWrite p) w)) /\
  TCP.write p (mkObj (TCP.mkGettyTCPConn g None) w)
  = (Panic nilDereference,
     mkObj (TCP.mkGettyTCPConn
              (set_writeCount
                 (uint32 (writeCount g + Z.of_nat (List.length p))) g)
              None)
           w) /\
  TCP.read p (mkObj (TCP.mkGettyTCPConn g None) w)
  = (Panic nilDereference, mkObj (TCP.mkGettyTCPConn g None) w) /\
  (forall (ops : list streamOp) (id : Z) (l r : string),
   exists rs g' w',
     streamRun ops (mkObj (TCP.mkGettyTCPConn (newGettyConn id l r) (Some c)) w)
     = (Return rs, mkObj (TCP.mkGettyTCPConn g' (Some c)) w') /\
     readCount g' = uint32 (bytesRead rs) /\
     writeCount g' = uint32 (bytesOffered ops) /\
     readPkgCount g' = 0 /\
     writePkgCount g' = 0) /\
  (forall (p1 p2 p3 : list byte) (id : Z) (l r : string),
     List.length p1 = 10%nat ->
     List.length p2 = 20%nat ->
     List.length p3 = 30%nat ->
     writeCount
       (TCP.base
          (self
             (exec (streamRun [DoWrite p1; DoWrite p2; DoWrite p3])
                (mkObj (TCP.mkGettyTCPConn (newGettyConn id l r) (Some c)) w))))
     = 60).
Proof.
  split; [apply stream_read_live|].
  split; [apply stream_write_live|].
  split; [apply stream_write_cleared|].
  split; [reflexivity|].
  split.
  - intros ops id l r.
    destruct (streamRun_counters ops (newGettyConn id l r) c w)
      as (rs & g' & w' & Hrun & Hrc & Hwc & Hrp & Hwp);
      [simpl; lia | simpl; lia |].
    exists rs, g', w'. simpl in Hrc, Hwc, Hrp, Hwp.
    repeat split; assumption.
  - intros p1 p2 p3 id l r H1 H2 H3.
    destruct (streamRun_counters [DoWrite p1; DoWrite p2; DoWrite p3]
                (newGettyConn id l r) c w)
      as (rs & g' & w' & Hrun & _ & Hwc & _);
      [simpl; lia | simpl; lia |].
    unfold exec. rewrite Hrun. simpl. rewrite Hwc. simpl.
    rewrite H1, H2, H3. reflexivity.
Qed.

(** ** Closing the stream adapter *)

Section StreamClose.

Variables (g : gettyConn) (c : NetConn) (w : World).

Lemma stream_close_tcp (waitSec : Z) :
  isTCPConn c = true ->
  TCP.close waitSec (mkObj (TCP.mkGettyTCPConn g (Some c)) w)
  = (Return tt,
     mkObj (TCP.mkGettyTCPConn g None)
           (emit EvClose (emit (EvSetLinger waitSec) w))).
Proof. intros Htcp. run_stream. rewrite Htcp. reflexivity. Qed.

Lemma stream_close_other (waitSec : Z) :
  isTCPConn c = false ->
  TCP.close waitSec (mkObj (TCP.mkGettyTCPConn g (Some c)) w)
  = (Panic badConversion, mkObj (TCP.mkGettyTCPConn g (Some c)) w).
Proof. intros Htcp. run_stream. rewrite Htcp. reflexivity. Qed.

End StreamClose.

Lemma closeCount_emit (e : event) (w : World) :
  closeCount (trace (emit e w))
  = (closeCount (trace w) + (if isClose e then 1 else 0))%nat.
Proof.
  unfold closeCount. simpl. rewrite filter_app, length_app. simpl.
  destruct (isClose e); reflexivity.
Qed.

(** C8, amended: on a stream adapter whose handle is a [*net.TCPConn], the
    first [close] sets the linger option to the seconds given, closes the
    transport once and clears the handle, without panicking; a [close] on
    a cleared handle returns with nothing done, so two calls in a row
    close the transport exactly once. *)
Theorem stream_close_idempotent
    (g : gettyConn) (c : NetConn) (w : World) (waitSec again : Z) :
  isTCPConn c = true ->
  TCP.close waitSec (mkObj (TCP.mkGettyTCPConn g (Some c)) w)
  = (Return tt,
     mkObj (TCP.mkGettyTCPConn g None)
           (emit EvClose (emit (EvSetLinger waitSec) w))) /\
  (forall w1 : World,
     TCP.close again (mkObj (TCP.mkGettyTCPConn g None) w1)
     = (Return tt, mkObj (TCP.mkGettyTCPConn g None) w1)) /\
  bind (TCP.close waitSec) (fun _ => TCP.close again)
       (mkObj (TCP.mkGettyTCPConn g (Some c)) w)
  = (Return tt,
     mkObj (TCP.mkGettyTCPConn g None)
           (emit EvClose (emit (EvSetLinger waitSec) w))) /\
  closeCount
    (trace (world (exec (bind (TCP.close waitSec) (fun _ => TCP.close again))
                        (mkObj (TCP.mkGettyTCPConn g (Some c)) w))))
  = S (closeCount (trace w)).
Proof.
  intros Htcp.
  assert (Htwice :
    bind (TCP.close waitSec) (fun _ => TCP.close again)
         (mkObj (TCP.mkGettyTCPConn g (Some c)) w)
    = (Return tt,
       mkObj (TCP.mkGettyTCPConn g None)
             (emit EvClose (emit (EvSetLinger waitSec) w)))).
  { unfold bind at 1. rewrite stream_close_tcp by exact Htcp. reflexivity. }
  split; [apply stream_close_tcp; exact Htcp|].
  split; [reflexivity|]. split; [exact Htwice|].
  unfold exec. rewrite Htwice. simpl snd. simpl world.
  rewrite !closeCount_emit. simpl. lia.
Qed.

(** C8 fails on a handle that is not a [*net.TCPConn]: over an in-memory
    pipe the first [close] panics with the transport not closed and the
    handle still in place, and so does the second. *)
Lemma stream_close_pipe_panics :
  TCP.close 0 (mkObj (TCP.mkGettyTCPConn freshConn (Some pipeSample)) freshWorld)
  = (Panic badConversion,
     mkObj (TCP.mkGettyTCPConn freshConn (Some pipeSample)) freshWorld) /\
  bind (TCP.close 0) (fun _ => TCP.close 0)
       (mkObj (TCP.mkGettyTCPConn freshConn (Some pipeSample)) freshWorld)
  = (Panic badConversion,
     mkObj (TCP.mkGettyTCPConn freshConn (Some pipeSample)) freshWorld) /\
  closeCount
    (trace (world (exec (TCP.close 0)
                     (mkObj (TCP.mkGettyTCPConn freshConn (Some pipeSample))
                            freshWorld))))
  = 0%nat.
Proof. repeat split. Qed.

(** ** Message adapter *)

Ltac run_message :=
  unfold WS.handlePing, WS.handlePong, WS.read, WS.write, WS.close,
    WS.onBase, promoted, updateActive, call, getSelf, getWorld, modSelf,
    modWorld, bind, ret, panic, gets, modify; simpl.

(** C2: the ping handler sends one pong frame whose payload is the bytes
    of the ping's.  When the send succeeds, or fails with [ErrCloseSent],
    or fails with a [net.Error] that is temporary, the handler returns nil
    and has called [updateActive] (the clock is read once and stored in
    [active]); on any other error it returns that error and has neither
    read the clock nor changed the adapter. *)
Theorem ping_is_answered_with_pong
    (g : gettyConn) (c : WSConn) (w : World) (message : string) :
  let data := list_byte_of_string message in
  let err := wsWriteMessage c (trace w) PongMessage data in
  let sent := emit (EvWriteMessage PongMessage data) w in
  ((err = None \/ err = Some ErrCloseSent \/
    (exists text, err = Some (NetError true text))) ->
   WS.handlePing message (mkObj (WS.mkGettyWSConn g c) w)
   = (Return None,
      mkObj (WS.mkGettyWSConn (set_active (int64 (sinceLaunch w)) g) c)
            (emit EvSince sent))) /\
  (err <> None ->
   err <> Some ErrCloseSent ->
   (forall text, err <> Some (NetError true text)) ->
   WS.handlePing message (mkObj (WS.mkGettyWSConn g c) w)
   = (Return err, mkObj (WS.mkGettyWSConn g c) sent)).
Proof.
  intros data err sent. subst data sent. run_message. fold err. split.
  - intros [H | [H | [text H]]]; rewrite H; reflexivity.
  - intros Hnil Hsent Htmp.
    destruct err as [[| code text | [|] text | text]|]; simpl;
      try reflexivity.
    + congruence.
    + exfalso. exact (Htmp text eq_refl).
    + congruence.
Qed.

Lemma message_read_step (g : gettyConn) (c : WSConn) (w : World) :
  exists w1,
    WS.read (mkObj (WS.mkGettyWSConn g c) w)
    = (Return (snd (fst (wsReadMessage c (trace w))),
               snd (wsReadMessage c (trace w))),
       mkObj (WS.mkGettyWSConn
                (if WS.isNil (snd (wsReadMessage c (trace w)))
                 then set_readPkgCount (uint32 (readPkgCount g + 1)) g
                 else g) c)
             w1).
Proof.
  run_message. destruct (wsReadMessage c (trace w)) as [[ty b] [e|]]; simpl.
  - destruct (IsUnexpectedCloseError (Some e) [CloseGoingAway]);
      eexists; reflexivity.
  - eexists. reflexivity.
Qed.

Lemma messageReads_counters (n : nat) :
  forall (g : gettyConn) (c : WSConn) (w : World),
    0 <= readPkgCount g < 2 ^ 32 ->
    exists rs g' w',
      messageReads n (mkObj (WS.mkGettyWSConn g c) w)
      = (Return rs, mkObj (WS.mkGettyWSConn g' c) w') /\
      List.length rs = n /\
      readPkgCount g'
      = uint32 (readPkgCount g + Z.of_nat (List.length (filter succeeded rs))) /\
      readCount g' = readCount g.
Proof.
  induction n as [|n IH]; intros g c w Hr.
  - exists [], g, w. simpl. rewrite Z.add_0_r, uint32_id by exact Hr.
    repeat split.
  - destruct (message_read_step g c w) as (w1 & Hstep).
    set (e := snd (wsReadMessage c (trace w))) in *.
    set (b := snd (fst (wsReadMessage c (trace w)))) in *.
    set (g1 := if WS.isNil e
               then set_readPkgCount (uint32 (readPkgCount g + 1)) g
               else g) in *.
    assert (Hg1 : 0 <= readPkgCount g1 < 2 ^ 32).
    { subst g1. destruct (WS.isNil e); [apply uint32_range | exact Hr]. }
    destruct (IH g1 c w1 Hg1) as (rs & g' & w' & Hrun & Hlen & Hrp & Hrc).
    exists ((b, e) :: rs), g', w'. split; [|split; [|split]].
    + simpl. unfold bind at 1. rewrite Hstep.
      unfold bind at 1. rewrite Hrun. reflexivity.
    + simpl. now rewrite Hlen.
    + rewrite Hrp. simpl filter.
      change (succeeded (b, e)) with (WS.isNil e). subst g1.
      destruct (WS.isNil e); [|reflexivity].
      simpl readPkgCount. rewrite uint32_add_l. f_equal.
      change (List.length ((b, e) :: filter succeeded rs))
        with (S (List.length (filter succeeded rs))).
      lia.
    + rewrite Hrc. subst g1. destruct (WS.isNil e); reflexivity.
Qed.

Lemma filter_all {A : Type} (f : A -> bool) (l : list A) :
  forallb f l = true -> filter f l = l.
Proof.
  induction l as [|a l IH]; simpl; [reflexivity|].
  intros H. apply andb_true_iff in H. destruct H as [Ha Hl].
  rewrite Ha, IH by exact Hl. reflexivity.
Qed.

(** C7: the message adapter's [read] hands back the payload and error of
    the transport's [ReadMessage].  On success it adds 1 to [readPkgCount]
    (in 32 bits) and changes nothing else.  On failure it changes no
    counter; when the error is a close error with a code other than going
    away it logs one warning, otherwise nothing, and the error is returned
    either way.  After any number of reads on a newly built adapter
    [readPkgCount] is the number of successful ones and [readCount] is 0:
    three successful reads give 3 and 0. *)
Theorem message_read_counts_messages
    (g : gettyConn) (c : WSConn) (w : World) :
  let b := snd (fst (wsReadMessage c (trace w))) in
  let e := snd (wsReadMessage c (trace w)) in
  (e = None ->
   WS.read (mkObj (WS.mkGettyWSConn g c) w)
   = (Return (b, None),
      mkObj (WS.mkGettyWSConn
               (set_readPkgCount (uint32 (readPkgCount g + 1)) g) c)
            (emit EvReadMessage w))) /\
  (forall e', e = Some e' ->
     IsUnexpectedCloseError e [CloseGoingAway] = true ->
     WS.read (mkObj (WS.mkGettyWSConn g c) w)
     = (Return (b, Some e'),
        mkObj (WS.mkGettyWSConn g c)
              (emit (EvLogWarn "websocket unexpected close error: %v" e')
                    (emit EvReadMessage w)))) /\
  (forall e', e = Some e' ->
     IsUnexpectedCloseError e [CloseGoingAway] = false ->
     WS.read (mkObj (WS.mkGettyWSConn g c) w)
     = (Return (b, Some e'),
        mkObj (WS.mkGettyWSConn g c) (emit EvReadMessage w))) /\
  (forall err : error,
     IsUnexpectedCloseError err [CloseGoingAway] = true <->
     exists code text,
       err = Some (CloseError code text) /\ code <> CloseGoingAway) /\
  (forall (n : nat) (id : Z) (l r : string),
   exists rs g' w',
     messageReads n (mkObj (WS.mkGettyWSConn (newGettyConn id l r) c) w)
     = (Return rs, mkObj (WS.mkGettyWSConn g' c) w') /\
     List.length rs = n /\
     readPkgCount g'
     = uint32 (Z.of_nat (List.length (filter succeeded rs))) /\
     readCount g' = 0 /\
     (n = 3%nat -> forallb succeeded rs = true ->
      readPkgCount g' = 3 /\ readCount g' = 0)).
Proof.
  intros b e. subst b e.
  split; [|split; [|split; [|split]]].
  - intros He. run_message.
    destruct (wsReadMessage c (trace w)) as [[ty b] e]. simpl in *.
    subst e. simpl. reflexivity.
  - intros e' He Hunexp. run_message.
    destruct (wsReadMessage c (trace w)) as [[ty b] e]. simpl in *.
    subst e. rewrite Hunexp. reflexivity.
  - intros e' He Hunexp. run_message.
    destruct (wsReadMessage c (trace w)) as [[ty b] e]. simpl in *.
    subst e. rewrite Hunexp. reflexivity.
  - intros err. unfold IsUnexpectedCloseError. split.
    + destruct err as [[| code text | tmp text | text]|]; try discriminate.
      simpl. rewrite orb_false_r. intros H.
      exists code, text. split; [reflexivity|].
      apply negb_true_iff, Z.eqb_neq in H. exact H.
    + intros (code & text & -> & Hne). simpl. rewrite orb_false_r.
      apply negb_true_iff, Z.eqb_neq. exact Hne.
  - intros n id l r.
    destruct (messageReads_counters n (newGettyConn id l r) c w)
      as (rs & g' & w' & Hrun & Hlen & Hrp & Hrc); [simpl; lia|].
    exists rs, g', w'. simpl in Hrp, Hrc.
    split; [exact Hrun|]. split; [exact Hlen|]. split; [exact Hrp|].
    split; [exact Hrc|]. intros Hn Hall. split; [|exact Hrc].
    rewrite Hrp, (filter_all _ _ Hall), Hlen, Hn. reflexivity.
Qed.

(** ** Closing the message adapter *)

Lemma lingerValues_app (tr1 tr2 : list event) :
  lingerValues (tr1 ++ tr2) = lingerValues tr1 ++ lingerValues tr2.
Proof.
  induction tr1 as [|e tr1 IH]; simpl; [reflexivity|].
  destruct e; simpl; rewrite IH; reflexivity.
Qed.

(** C3, amended: on a message adapter whose underlying connection is a
    [*net.TCPConn], [close] sends a close frame with the payload
    "bye-bye!!!", sets the linger option to the seconds it was given
    (linger is abandoned only when that is 0), then closes the transport;
    whatever the three calls answer, [close] returns normally and gives
    nothing back. *)
Theorem message_close_best_effort
    (g : gettyConn) (c : WSConn) (w : World) (waitSec : Z) :
  underlyingIsTCP c = true ->
  WS.close waitSec (mkObj (WS.mkGettyWSConn g c) w)
  = (Return tt,
     mkObj (WS.mkGettyWSConn g c)
           (emit EvClose
              (emit (EvSetLinger waitSec)
                 (emit (EvWriteMessage CloseMessage
                          (list_byte_of_string "bye-bye!!!")) w)))) /\
  lingerValues
    (trace (world (exec (WS.close waitSec) (mkObj (WS.mkGettyWSConn g c) w))))
  = lingerValues (trace w) ++ [waitSec].
Proof.
  intros Htcp.
  assert (Hrun :
    WS.close waitSec (mkObj (WS.mkGettyWSConn g c) w)
    = (Return tt,
       mkObj (WS.mkGettyWSConn g c)
             (emit EvClose
                (emit (EvSetLinger waitSec)
                   (emit (EvWriteMessage CloseMessage
                            (list_byte_of_string "bye-bye!!!")) w))))).
  { run_message. rewrite Htcp. reflexivity. }
  split; [exact Hrun|].
  unfold exec. rewrite Hrun. simpl snd. simpl world. unfold emit at 1 2 3.
  simpl trace. rewrite !lingerValues_app. simpl.
  rewrite !app_nil_r. reflexivity.
Qed.

(** C3 fails when the caller asks for a linger time: [close 5] on a
    websocket over TCP sets the linger option to 5 seconds, not to 0, so
    the transport is not told to drop unflushed data, although the send
    and the linger call both answered an error and none came back.  Over
    TLS, [close 0] does not get as far as closing the transport. *)
Lemma message_close_keeps_linger :
  WS.close 5
    (mkObj (WS.mkGettyWSConn freshConn
              (wsSample 1000 (Some (OtherError "broken pipe"))))
           freshWorld)
  = (Return tt,
     mkObj (WS.mkGettyWSConn freshConn
              (wsSample 1000 (Some (OtherError "broken pipe"))))
           (mkWorld 100 0 0
              [EvWriteMessage 8 (list_byte_of_string "bye-bye!!!");
               EvSetLinger 5; EvClose])) /\
  lingerValues
    (trace (world (exec (WS.close 5)
                     (mkObj (WS.mkGettyWSConn freshConn
                               (wsSample 1000 (Some (OtherError "broken pipe"))))
                            freshWorld))))
  = [5] /\
  ~ In 0
      (lingerValues
         (trace (world (exec (WS.close 5)
                          (mkObj (WS.mkGettyWSConn freshConn
                                    (wsSample 1000
                                       (Some (OtherError "broken pipe"))))
                                 freshWorld))))) /\
  closeCount
    (trace (world (exec (WS.close 0)
                     (mkObj (WS.mkGettyWSConn freshConn wssSample) freshWorld))))
  = 0%nat.
Proof.
  split; [reflexivity|]. split; [reflexivity|]. split; [|reflexivity].
  simpl. intros [H | []]. discriminate H.
Qed.

(** C10: the stream constructor takes any non-nil [net.Conn], but [close]
    asserts it to be a [*net.TCPConn]: over any other handle the first
    [close] panics before the linger option is set or the transport
    closed, and the handle stays in place.  The message adapter's [close]
    asserts the same of the websocket's underlying connection and panics
    once the close frame has been sent. *)
Theorem close_asserts_tcp (g : gettyConn) (waitSec : Z) :
  (forall (c : NetConn) (w : World),
     isTCPConn c = false ->
     exists t w',
       TCP.newGettyTCPConn (Some c) w = (Return t, w') /\
       TCP.conn t = Some c /\
       TCP.close waitSec (mkObj t w') = (Panic badConversion, mkObj t w')) /\
  (forall (c : NetConn) (w : World),
     isTCPConn c = false ->
     TCP.close waitSec (mkObj (TCP.mkGettyTCPConn g (Some c)) w)
     = (Panic badConversion, mkObj (TCP.mkGettyTCPConn g (Some c)) w)) /\
  (forall (c : WSConn) (w : World),
     underlyingIsTCP c = false ->
     WS.close waitSec (mkObj (WS.mkGettyWSConn g c) w)
     = (Panic badConversion,
        mkObj (WS.mkGettyWSConn g c)
              (emit (EvWriteMessage CloseMessage WS.farewell) w))).
Proof.
  split; [|split].
  - intros c w Htcp. eexists. eexists. split; [reflexivity|].
    split; [reflexivity|]. apply stream_close_other. exact Htcp.
  - intros c w Htcp. apply stream_close_other. exact Htcp.
  - intros c w Htcp. run_message. rewrite Htcp. reflexivity.
Qed.

(** * The theorems at concrete inputs *)

(** Four adds by goroutines 3, 1, 3 and 2 hand out 1, 2, 3, 4. *)
Lemma identities_before_wrap_witness :
  Z.of_nat (List.length [3; 1; 3; 2]%nat) < 2 ^ 32 /\
  identities [3; 1; 3; 2]%nat = [1; 2; 3; 4].
Proof.
  split; [simpl; lia|].
  destruct (identities_before_wrap [3; 1; 3; 2]%nat) as [H _];
    [simpl; lia | exact H].
Defined.

(** A benign send error is swallowed and the activity time moves; a hard
    one comes back and nothing moves. *)
Lemma ping_is_answered_with_pong_witness :
  WS.handlePing "hello"
    (mkObj (WS.mkGettyWSConn freshConn (wsSample 1000 (Some ErrCloseSent)))
           (set_sinceLaunch 42 freshWorld))
  = (Return None,
     mkObj (WS.mkGettyWSConn (set_active 42 freshConn)
              (wsSample 1000 (Some ErrCloseSent)))
           (mkWorld 100 0 42
              [EvWriteMessage 10 (list_byte_of_string "hello"); EvSince])) /\
  WS.handlePing "hello"
    (mkObj (WS.mkGettyWSConn freshConn
              (wsSample 1000 (Some (OtherError "broken pipe"))))
           (set_sinceLaunch 42 freshWorld))
  = (Return (Some (OtherError "broken pipe")),
     mkObj (WS.mkGettyWSConn freshConn
              (wsSample 1000 (Some (OtherError "broken pipe"))))
           (mkWorld 100 0 42
              [EvWriteMessage 10 (list_byte_of_string "hello")])).
Proof.
  split.
  - destruct (ping_is_answered_with_pong freshConn
                (wsSample 1000 (Some ErrCloseSent))
                (set_sinceLaunch 42 freshWorld) "hello") as [H _].
    apply H. right. left. reflexivity.
  - destruct (ping_is_answered_with_pong freshConn
                (wsSample 1000 (Some (OtherError "broken pipe")))
                (set_sinceLaunch 42 freshWorld) "hello") as [_ H].
    apply H; simpl; intros; discriminate.
Defined.

Lemma message_close_best_effort_witness :
  underlyingIsTCP (wsSample 1000 None) = true /\
  WS.close 0 (mkObj (WS.mkGettyWSConn freshConn (wsSample 1000 None)) freshWorld)
  = (Return tt,
     mkObj (WS.mkGettyWSConn freshConn (wsSample 1000 None))
           (mkWorld 100 0 0
              [EvWriteMessage 8 (list_byte_of_string "bye-bye!!!");
               EvSetLinger 0; EvClose])).
Proof.
  split; [reflexivity|].
  destruct (message_close_best_effort freshConn (wsSample 1000 None)
              freshWorld 0) as [H _]; [reflexivity | exact H].
Defined.

(** Read deadline 5s on a new adapter, then write deadline 2s. *)
Lemma deadline_backfill_witness :
  0 < 5000000000 /\
  wDeadline freshConn = 0 /\
  setReadDeadline 5000000000 (mkObj freshConn freshWorld)
  = (Return tt,
     mkObj (set_wDeadline 5000000000 (set_rDeadline 5000000000 freshConn))
           freshWorld) /\
  setWriteDeadline 2000000000
    (mkObj (set_wDeadline 5000000000 (set_rDeadline 5000000000 freshConn))
           freshWorld)
  = (Return tt,
     mkObj (set_wDeadline 2000000000 (set_rDeadline 5000000000 freshConn))
           freshWorld).
Proof.
  split; [lia|]. split; [reflexivity|]. split.
  - destruct (deadline_backfill freshConn freshWorld 5000000000) as [H _];
      [lia|]. apply H. reflexivity.
  - destruct (deadline_backfill
                (set_wDeadline 5000000000 (set_rDeadline 5000000000 freshConn))
                freshWorld 2000000000) as (_ & _ & H & _); [lia|].
    exact H.
Defined.

Lemma deadline_invalid_argument_witness :
  (setReadDeadline 0 (mkObj freshConn freshWorld)
   = (Panic "@rDeadline < 1", mkObj freshConn freshWorld) /\
   setWriteDeadline (-3) (mkObj freshConn freshWorld)
   = (Panic "@wDeadline < 1", mkObj freshConn freshWorld)) /\
  (result (setReadDeadline 1) (mkObj freshConn freshWorld) = Return tt /\
   result (setWriteDeadline 1) (mkObj freshConn freshWorld) = Return tt).
Proof.
  split; [split|].
  - destruct (deadline_invalid_argument freshConn freshWorld 0) as [H _].
    apply H. lia.
  - destruct (deadline_invalid_argument freshConn freshWorld (-3)) as [H _].
    apply H. lia.
  - destruct (deadline_invalid_argument freshConn freshWorld 1) as [_ H].
    apply H. lia.
Defined.

Lemma stream_byte_counters_witness :
  writeCount
    (TCP.base
       (self
          (exec (streamRun [DoWrite (repeat "a"%byte 10);
                            DoWrite (repeat "b"%byte 20);
                            DoWrite (repeat "c"%byte 30)])
             (mkObj (TCP.mkGettyTCPConn freshConn (Some tcpSample)) freshWorld))))
  = 60.
Proof.
  destruct (stream_byte_counters freshConn tcpSample freshWorld [])
    as (_ & _ & _ & _ & _ & H).
  apply (H (repeat "a"%byte 10) (repeat "b"%byte 20) (repeat "c"%byte 30)
           1 "127.0.0.1:8080"%string ""%string); reflexivity.
Defined.

(** The first read succeeds and is counted; the second fails with close
    code 1006 and is logged. *)
Lemma message_read_counts_messages_witness :
  WS.read (mkObj (WS.mkGettyWSConn freshConn (wsSample 1006 None)) freshWorld)
  = (Return (["h"%byte; "i"%byte], None),
     mkObj (WS.mkGettyWSConn (set_readPkgCount 1 freshConn) (wsSample 1006 None))
           (mkWorld 100 0 0 [EvReadMessage])) /\
  WS.read (mkObj (WS.mkGettyWSConn (set_readPkgCount 1 freshConn)
                    (wsSample 1006 None))
                 (mkWorld 100 0 0 [EvReadMessage]))
  = (Return ([], Some (CloseError 1006 "closed")),
     mkObj (WS.mkGettyWSConn (set_readPkgCount 1 freshConn) (wsSample 1006 None))
           (mkWorld 100 0 0
              [EvReadMessage; EvReadMessage;
               EvLogWarn "websocket unexpected close error: %v"
                 (CloseError 1006 "closed")])).
Proof.
  split.
  - destruct (message_read_counts_messages freshConn (wsSample 1006 None)
                freshWorld) as [H _].
    apply H. reflexivity.
  - destruct (message_read_counts_messages (set_readPkgCount 1 freshConn)
                (wsSample 1006 None) (mkWorld 100 0 0 [EvReadMessage]))
      as (_ & H & _).
    apply (H (CloseError 1006 "closed")); reflexivity.
Defined.

Lemma stream_close_idempotent_witness :
  isTCPConn tcpSample = true /\
  bind (TCP.close 3) (fun _ => TCP.close 3)
       (mkObj (TCP.mkGettyTCPConn freshConn (Some tcpSample)) freshWorld)
  = (Return tt,
     mkObj (TCP.mkGettyTCPConn freshConn None)
           (mkWorld 100 0 0 [EvSetLinger 3; EvClose])).
Proof.
  split; [reflexivity|].
  destruct (stream_close_idempotent freshConn tcpSample freshWorld 3 3)
    as (_ & _ & H & _); [reflexivity | exact H].
Defined.

Lemma getActive_non_decreasing_witness :
  active freshConn <= sinceLaunch freshWorld /\
  0 <= sinceLaunch freshWorld <= maxInt64 /\
  clockNonDecreasing (sinceLaunch freshWorld)
    [Get; Tick 5; Update; Get; Tick 7; Get; Update; Get] /\
  exists vs o',
    activityRun [Get; Tick 5; Update; Get; Tick 7; Get; Update; Get]
      (mkObj freshConn freshWorld)
    = (Return vs, o') /\
    StronglySorted Z.le vs.
Proof.
  assert (H1 : active freshConn <= sinceLaunch freshWorld) by (simpl; lia).
  assert (H2 : 0 <= sinceLaunch freshWorld <= maxInt64)
    by (cbn [sinceLaunch freshWorld initWorld]; unfold maxInt64; lia).
  assert (H3 : clockNonDecreasing (sinceLaunch freshWorld)
                 [Get; Tick 5; Update; Get; Tick 7; Get; Update; Get])
    by (cbn [clockNonDecreasing sinceLaunch freshWorld initWorld];
        unfold maxInt64; repeat split; lia).
  split; [exact H1|]. split; [exact H2|]. split; [exact H3|].
  exact (getActive_non_decreasing freshConn freshWorld _ H1 H2 H3).
Defined.

Lemma close_asserts_tcp_witness :
  isTCPConn pipeSample = false /\
  underlyingIsTCP wssSample = false /\
  TCP.close 0 (mkObj (TCP.mkGettyTCPConn freshConn (Some pipeSample)) freshWorld)
  = (Panic badConversion,
     mkObj (TCP.mkGettyTCPConn freshConn (Some pipeSample)) freshWorld) /\
  WS.close 0 (mkObj (WS.mkGettyWSConn freshConn wssSample) freshWorld)
  = (Panic badConversion,
     mkObj (WS.mkGettyWSConn freshConn wssSample)
           (mkWorld 100 0 0
              [EvWriteMessage 8 (list_byte_of_string "bye-bye!!!")])).
Proof.
  split; [reflexivity|]. split; [reflexivity|].
  destruct (close_asserts_tcp freshConn 0) as (_ & Ht & Hw). split.
  - apply Ht. reflexivity.
  - apply (Hw wssSample freshWorld). reflexivity.
Defined.

(** * Beyond the claims: the whole method set *)

Ltac run_call :=
  unfold streamCall, messageCall, baseCall, TCP.onBase, WS.onBase, promoted,
    TCP.read, TCP.write, TCP.close, WS.handlePing, WS.handlePong, WS.read,
    WS.write, WS.writePing, WS.close, incReadPkgCount, incWritePkgCount,
    updateActive, getActive, readDeadline, writeDeadline, setReadDeadline,
    setWriteDeadline, call, getSelf, getWorld, modSelf, modWorld, exec,
    bind, ret, panic, gets, modify;
  simpl.

Ltac split_cases :=
  repeat match goal with
         | |- context [if ?b then _ else _] => destruct b eqn:?; simpl
         | |- context [match ?x with _ => _ end] => destruct x eqn:?; simpl
         end.

(** A property that the clock and every call keep is kept by a whole run,
    whether it ends normally or in a panic. *)
Lemma runCalls_keeps {T X : Type} (invoke : X -> M (Obj T) unit)
    (P : Obj T -> Prop) :
  (forall now o, P o -> P (mkObj (self o) (set_sinceLaunch now (world o)))) ->
  (forall x o, P o -> P (exec (invoke x) o)) ->
  forall cs o, P o -> P (exec (runCalls invoke cs) o).
Proof.
  intros Hclock Hcall cs. induction cs as [|[now x] rest IH]; intros o HP.
  - exact HP.
  - unfold exec. simpl. unfold bind at 1. unfold modWorld, modify. simpl.
    unfold bind at 1.
    specialize (Hcall x (mkObj (self o) (set_sinceLaunch now (world o)))
                  (Hclock now o HP)).
    unfold exec in Hcall.
    destruct (invoke x (mkObj (self o) (set_sinceLaunch now (world o))))
      as [[[]|msg] o1]; simpl in *.
    + apply IH. exact Hcall.
    + exact Hcall.
Qed.

Lemma int64_range (z : Z) : minInt64 <= int64 z <= maxInt64.
Proof.
  unfold int64, minInt64, maxInt64.
  pose proof (Z.mod_pos_bound (z + 2 ^ 63) (2 ^ 64)). lia.
Qed.

Lemma AddUint32_range (a b : Z) : 0 <= AddUint32 a b < 2 ^ 32.
Proof. unfold AddUint32. apply uint32_range. Qed.

Lemma baseCall_wellFormed (m : baseMethod) (g : gettyConn) (w : World) :
  wellFormed g -> wellFormed (self (exec (baseCall m) (mkObj g w))).
Proof.
  unfold wellFormed. intros (Hid & Hrc & Hwc & Hrp & Hwp & Ha & Hrd & Hwd & Hd).
  destruct m; run_call; split_cases;
    repeat match goal with
           | |- _ /\ _ => split
           end;
    try assumption; try apply AddUint32_range; try apply int64_range;
    try lia.
Qed.

Lemma baseCall_frame (m : baseMethod) (g : gettyConn) (w : World) :
  let o' := exec (baseCall m) (mkObj g w) in
  ID (self o') = ID g /\
  padding (self o') = padding g /\
  local (self o') = local g /\
  peer (self o') = peer g /\
  readCount (self o') = readCount g /\
  writeCount (self o') = writeCount g /\
  launchTime (world o') = launchTime w /\
  connID (world o') = connID w /\
  sinceLaunch (world o') = sinceLaunch w /\
  transportCalls (trace (world o')) = transportCalls (trace w) /\
  closeCount (trace (world o')) = closeCount (trace w).
Proof.
  destruct m; run_call; split_cases; unfold transportCalls, closeCount;
    simpl; rewrite ?filter_app, ?app_nil_r; simpl; rewrite ?app_nil_r;
    repeat split; reflexivity.
Qed.

Lemma stream_onBase (A : Type) (m : M (Obj gettyConn) A)
    (t : TCP.gettyTCPConn) (w : World) :
  TCP.base (self (exec (TCP.onBase m) (mkObj t w)))
  = self (exec m (mkObj (TCP.base t) w)) /\
  TCP.conn (self (exec (TCP.onBase m) (mkObj t w))) = TCP.conn t /\
  world (exec (TCP.onBase m) (mkObj t w))
  = world (exec m (mkObj (TCP.base t) w)).
Proof.
  unfold exec, TCP.onBase, promoted. simpl.
  destruct (m (mkObj (TCP.base t) w)) as [r o']. simpl. repeat split.
Qed.

Lemma message_onBase (A : Type) (m : M (Obj gettyConn) A)
    (t : WS.gettyWSConn) (w : World) :
  WS.base (self (exec (WS.onBase m) (mkObj t w)))
  = self (exec m (mkObj (WS.base t) w)) /\
  WS.conn (self (exec (WS.onBase m) (mkObj t w))) = WS.conn t /\
  world (exec (WS.onBase m) (mkObj t w))
  = world (exec m (mkObj (WS.base t) w)).
Proof.
  unfold exec, WS.onBase, promoted. simpl.
  destruct (m (mkObj (WS.base t) w)) as [r o']. simpl. repeat split.
Qed.

Lemma streamCall_wellFormed (x : streamMethod) (o : Obj TCP.gettyTCPConn) :
  wellFormed (TCP.base (self o)) ->
  wellFormed (TCP.base (self (exec (streamCall x) o))).
Proof.
  destruct o as [[g c] w]. simpl. intros Hwf. destruct x as [b|p|p|n].
  - unfold streamCall.
    destruct (stream_onBase unit (baseCall b) (TCP.mkGettyTCPConn g c) w)
      as (Hb & _). rewrite Hb. simpl. apply baseCall_wellFormed. exact Hwf.
  - run_call. destruct c as [c|]; simpl; [|exact Hwf].
    destruct (connRead c (trace w) (List.length p)) as [l e]. simpl.
    unfold wellFormed in *. simpl.
    destruct Hwf as (Hid & Hrc & Hwc & Hrp & Hwp & Ha & Hrd & Hwd & Hd).
    repeat split; try tauto; try apply AddUint32_range.
  - run_call.
    assert (Hwf' : wellFormed
      (set_writeCount
         (AddUint32 (writeCount g) (uint32 (Z.of_nat (List.length p)))) g)).
    { unfold wellFormed in *. simpl.
      destruct Hwf as (Hid & Hrc & Hwc & Hrp & Hwp & Ha & Hrd & Hwd & Hd).
      repeat split; try tauto; try apply AddUint32_range. }
    destruct c as [c|]; simpl; [|exact Hwf'].
    destruct (connWrite c (trace w) p) as [k e]. simpl. exact Hwf'.
  - run_call. destruct c as [c|]; simpl; [|exact Hwf].
    destruct (isTCPConn c); simpl; exact Hwf.
Qed.

Lemma messageCall_wellFormed (x : messageMethod) (o : Obj WS.gettyWSConn) :
  wellFormed (WS.base (self o)) ->
  wellFormed (WS.base (self (exec (messageCall x) o))).
Proof.
  destruct o as [[g c] w]. simpl. intros Hwf.
  assert (Hactive : forall v, wellFormed (set_active (int64 v) g)).
  { intros v. unfold wellFormed in *. simpl.
    destruct Hwf as (Hid & Hrc & Hwc & Hrp & Hwp & Ha & Hrd & Hwd & Hd).
    repeat split; try tauto; apply int64_range. }
  destruct x as [b|message|message| |p| |n].
  - unfold messageCall.
    destruct (message_onBase unit (baseCall b) (WS.mkGettyWSConn g c) w)
      as (Hb & _). rewrite Hb. simpl. apply baseCall_wellFormed. exact Hwf.
  - run_call.
    destruct (wsWriteMessage c (trace w) PongMessage
                (list_byte_of_string message))
      as [[| code text | [|] text | text]|]; simpl;
      first [apply Hactive | exact Hwf].
  - run_call. apply Hactive.
  - run_call. destruct (wsReadMessage c (trace w)) as [[ty b] [e|]]; simpl.
    + destruct (IsUnexpectedCloseError (Some e) [CloseGoingAway]); exact Hwf.
    + unfold wellFormed in *. simpl.
      destruct Hwf as (Hid & Hrc & Hwc & Hrp & Hwp & Ha & Hrd & Hwd & Hd).
      repeat split; try tauto; apply AddUint32_range.
  - run_call. unfold wellFormed in *. simpl.
    destruct Hwf as (Hid & Hrc & Hwc & Hrp & Hwp & Ha & Hrd & Hwd & Hd).
    repeat split; try tauto; apply AddUint32_range.
  - run_call. exact Hwf.
  - run_call. destruct (underlyingIsTCP c); simpl; exact Hwf.
Qed.

(** X1: the fields of the shared record keep the values of their Go types
    and the deadline rule through any run of calls on either adapter,
    whatever the transports answer and wherever the run panics: the four
    counters stay within 32 bits, [active] within 64, both deadlines stay
    non-negative, and a read deadline is never set while the write
    deadline is zero. *)
Theorem adapters_stay_wellFormed :
  (forall (cs : list (Z * streamMethod)) (t : TCP.gettyTCPConn) (w : World),
     wellFormed (TCP.base t) ->
     wellFormed (TCP.base (self (exec (runCalls streamCall cs) (mkObj t w))))) /\
  (forall (cs : list (Z * messageMethod)) (t : WS.gettyWSConn) (w : World),
     wellFormed (WS.base t) ->
     wellFormed (WS.base (self (exec (runCalls messageCall cs) (mkObj t w))))) /\
  (forall (id : Z) (l r : string),
     0 <= id < 2 ^ 32 -> wellFormed (newGettyConn id l r)).
Proof.
  split; [|split].
  - intros cs t w Hwf.
    apply (runCalls_keeps streamCall
             (fun o => wellFormed (TCP.base (self o)))).
    + intros now o H. exact H.
    + intros x o H. apply streamCall_wellFormed. exact H.
    + exact Hwf.
  - intros cs t w Hwf.
    apply (runCalls_keeps messageCall
             (fun o => wellFormed (WS.base (self o)))).
    + intros now o H. exact H.
    + intros x o H. apply messageCall_wellFormed. exact H.
    + exact Hwf.
  - intros id l r Hid. unfold wellFormed, minInt64, maxInt64. simpl.
    repeat split; lia.
Qed.

(** ** The stream adapter over any run of calls *)

Lemma closeCount_app (tr1 tr2 : list event) :
  closeCount (tr1 ++ tr2) = (closeCount tr1 + closeCount tr2)%nat.
Proof. unfold closeCount. rewrite filter_app, length_app. reflexivity. Qed.

Lemma transportCalls_app (tr1 tr2 : list event) :
  transportCalls (tr1 ++ tr2) = transportCalls tr1 ++ transportCalls tr2.
Proof. unfold transportCalls. apply filter_app. Qed.

Lemma closeCount_transportCalls (tr : list event) :
  closeCount (transportCalls tr) = closeCount tr.
Proof.
  unfold closeCount, transportCalls.
  induction tr as [|e tr IH]; simpl; [reflexivity|].
  destruct e; simpl; rewrite IH; reflexivity.
Qed.

(** What one call does to the handle and to the transport. *)
Lemma streamCall_handle (x : streamMethod) (g : gettyConn)
    (c : option NetConn) (w : World) :
  let o' := exec (streamCall x) (mkObj (TCP.mkGettyTCPConn g c) w) in
  ID (TCP.base (self o')) = ID g /\
  local (TCP.base (self o')) = local g /\
  peer (TCP.base (self o')) = peer g /\
  match c with
  | None =>
      TCP.conn (self o') = None /\
      transportCalls (trace (world o')) = transportCalls (trace w)
  | Some h =>
      (TCP.conn (self o') = Some h /\
       closeCount (trace (world o')) = closeCount (trace w)) \/
      (TCP.conn (self o') = None /\
       closeCount (trace (world o')) = S (closeCount (trace w)))
  end.
Proof.
  destruct x as [b|p|p|n].
  - unfold streamCall.
    destruct (stream_onBase unit (baseCall b) (TCP.mkGettyTCPConn g c) w)
      as (Hb & Hc & Hw).
    destruct (baseCall_frame b g w)
      as (Hid & _ & Hl & Hp & _ & _ & _ & _ & _ & Htc & Hcc).
    simpl in *. rewrite Hb, Hc, Hw, Hid, Hl, Hp, Htc, Hcc.
    repeat split. destruct c; [left|]; split; reflexivity.
  - run_call. destruct c as [h|]; simpl.
    + destruct (connRead h (trace w) (List.length p)) as [l e]. simpl.
      repeat split. left. split; [reflexivity|].
      rewrite closeCount_app. simpl. unfold closeCount at 2. simpl. lia.
    + repeat split.
  - run_call. destruct c as [h|]; simpl.
    + destruct (connWrite h (trace w) p) as [k e]. simpl.
      repeat split. left. split; [reflexivity|].
      rewrite closeCount_app. unfold closeCount at 2. simpl. lia.
    + repeat split.
  - run_call. destruct c as [h|]; simpl.
    + destruct (isTCPConn h); simpl; repeat split.
      * right. split; [reflexivity|].
        rewrite !closeCount_app. unfold closeCount at 2 3. simpl. lia.
      * left. split; reflexivity.
    + repeat split.
Qed.

(** X2: through any run of calls on a stream adapter, whatever the
    transport answers and wherever the run panics, the adapter's identity
    and its two addresses stay as they were, and the handle is either the
    one it started with or nil. *)
Theorem stream_identity_is_fixed
    (cs : list (Z * streamMethod)) (t : TCP.gettyTCPConn) (w : World) :
  let o' := exec (runCalls streamCall cs) (mkObj t w) in
  ID (TCP.base (self o')) = ID (TCP.base t) /\
  local (TCP.base (self o')) = local (TCP.base t) /\
  peer (TCP.base (self o')) = peer (TCP.base t) /\
  (TCP.conn (self o') = TCP.conn t \/ TCP.conn (self o') = None).
Proof.
  apply (runCalls_keeps streamCall
           (fun o =>
              ID (TCP.base (self o)) = ID (TCP.base t) /\
              local (TCP.base (self o)) = local (TCP.base t) /\
              peer (TCP.base (self o)) = peer (TCP.base t) /\
              (TCP.conn (self o) = TCP.conn t \/ TCP.conn (self o) = None))).
  - intros now o H. exact H.
  - intros x [[g c] w0] (Hid & Hl & Hp & Hc). simpl in *.
    destruct (streamCall_handle x g c w0) as (Hid' & Hl' & Hp' & Hc').
    simpl in *. rewrite Hid', Hl', Hp'. repeat split; try assumption.
    destruct c as [h|].
    + destruct Hc' as [[Hc' _] | [Hc' _]]; rewrite Hc'; [|right; reflexivity].
      exact Hc.
    + right. tauto.
  - simpl. repeat split. left. reflexivity.
Qed.

(** X3: through any run of calls on a stream adapter that holds a handle,
    the transport is closed at most once, and it has been closed exactly
    when the handle has been cleared. *)
Theorem stream_closes_at_most_once
    (cs : list (Z * streamMethod)) (g : gettyConn) (c : NetConn) (w : World) :
  let o' := exec (runCalls streamCall cs)
                 (mkObj (TCP.mkGettyTCPConn g (Some c)) w) in
  (TCP.conn (self o') = Some c /\
   closeCount (trace (world o')) = closeCount (trace w)) \/
  (TCP.conn (self o') = None /\
   closeCount (trace (world o')) = S (closeCount (trace w))).
Proof.
  apply (runCalls_keeps streamCall
           (fun o =>
              (TCP.conn (self o) = Some c /\
               closeCount (trace (world o)) = closeCount (trace w)) \/
              (TCP.conn (self o) = None /\
               closeCount (trace (world o)) = S (closeCount (trace w))))).
  - intros now o H. exact H.
  - intros x [[g0 c0] w0] H. simpl in H.
    destruct (streamCall_handle x g0 c0 w0) as (_ & _ & _ & Hc').
    simpl in Hc'. destruct H as [[Hc Hn] | [Hc Hn]]; subst c0.
    + destruct Hc' as [[Hc' Hn'] | [Hc' Hn']]; [left | right];
        split; congruence.
    + destruct Hc' as [Hc' Htc]. right. split; [exact Hc'|].
      rewrite <- closeCount_transportCalls, Htc, closeCount_transportCalls.
      exact Hn.
  - left. split; reflexivity.
Qed.

(** X4: once a stream adapter's handle is nil, no call on the adapter
    reaches a transport again: through any run of calls the handle stays
    nil and the transport calls in the trace stay as they were. *)
Theorem stream_cleared_is_inert
    (cs : list (Z * streamMethod)) (g : gettyConn) (w : World) :
  let o' := exec (runCalls streamCall cs)
                 (mkObj (TCP.mkGettyTCPConn g None) w) in
  TCP.conn (self o') = None /\
  transportCalls (trace (world o')) = transportCalls (trace w).
Proof.
  apply (runCalls_keeps streamCall
           (fun o =>
              TCP.conn (self o) = None /\
              transportCalls (trace (world o)) = transportCalls (trace w))).
  - intros now o H. exact H.
  - intros x [[g0 c0] w0] [Hc Htc]. simpl in Hc, Htc. subst c0.
    destruct (streamCall_handle x g0 None w0) as (_ & _ & _ & Hc' & Htc').
    split; [exact Hc'|]. rewrite Htc'. exact Htc.
  - split; reflexivity.
Qed.

(** ** The message adapter over any run of calls *)

Lemma messageCall_frame (x : messageMethod) (g : gettyConn) (c : WSConn)
    (w : World) :
  let o' := exec (messageCall x) (mkObj (WS.mkGettyWSConn g c) w) in
  ID (WS.base (self o')) = ID g /\
  local (WS.base (self o')) = local g /\
  peer (WS.base (self o')) = peer g /\
  readCount (WS.base (self o')) = readCount g /\
  WS.conn (self o') = c.
Proof.
  destruct x as [b|message|message| |p| |n].
  - unfold messageCall.
    destruct (message_onBase unit (baseCall b) (WS.mkGettyWSConn g c) w)
      as (Hb & Hc & _).
    destruct (baseCall_frame b g w) as (Hid & _ & Hl & Hp & Hrc & _).
    simpl in *. rewrite Hb, Hc, Hid, Hl, Hp, Hrc. repeat split.
  - run_call.
    destruct (wsWriteMessage c (trace w) PongMessage
                (list_byte_of_string message))
      as [[| code text | [|] text | text]|]; simpl; repeat split.
  - run_call. repeat split.
  - run_call. destruct (wsReadMessage c (trace w)) as [[ty b] [e|]]; simpl.
    + destruct (IsUnexpectedCloseError (Some e) [CloseGoingAway]);
        repeat split.
    + repeat split.
  - run_call. repeat split.
  - run_call. repeat split.
  - run_call. destruct (underlyingIsTCP c); simpl; repeat split.
Qed.

(** X5: through any run of calls on a message adapter, whatever the
    transport answers and wherever the run panics, the identity, the two
    addresses and the handle stay as they were (no call clears the handle,
    [close] included), and [readCount] is never written: the message
    adapter counts no read bytes through any of its methods. *)
Theorem message_identity_is_fixed
    (cs : list (Z * messageMethod)) (t : WS.gettyWSConn) (w : World) :
  let o' := exec (runCalls messageCall cs) (mkObj t w) in
  ID (WS.base (self o')) = ID (WS.base t) /\
  local (WS.base (self o')) = local (WS.base t) /\
  peer (WS.base (self o')) = peer (WS.base t) /\
  readCount (WS.base (self o')) = readCount (WS.base t) /\
  WS.conn (self o') = WS.conn t.
Proof.
  apply (runCalls_keeps messageCall
           (fun o =>
              ID (WS.base (self o)) = ID (WS.base t) /\
              local (WS.base (self o)) = local (WS.base t) /\
              peer (WS.base (self o)) = peer (WS.base t) /\
              readCount (WS.base (self o)) = readCount (WS.base t) /\
              WS.conn (self o) = WS.conn t)).
  - intros now o H. exact H.
  - intros x [[g c] w0] (Hid & Hl & Hp & Hrc & Hc). simpl in *.
    destruct (messageCall_frame x g c w0) as (Hid' & Hl' & Hp' & Hrc' & Hc').
    simpl in *. rewrite Hid', Hl', Hp', Hrc', Hc'. repeat split; assumption.
  - repeat split.
Qed.



(** ** Stream reads and writes reach the transport as given *)

(** X7: on a stream adapter that holds its handle, a run of reads and
    writes never panics and makes exactly one transport call per
    operation, in the order given, with each write's payload unchanged and
    each read's buffer size; every result handed back is the transport's
    own answer to that call.  The run leaves the activity time and both
    deadlines as they were: stream I/O does not refresh activity. *)
Theorem stream_io_is_forwarded (ops : list streamOp) :
  forall (g : gettyConn) (c : NetConn) (w : World),
  exists g' w',
    streamRun ops (mkObj (TCP.mkGettyTCPConn g (Some c)) w)
    = (Return (transportAnswers c (trace w) ops),
       mkObj (TCP.mkGettyTCPConn g' (Some c)) w') /\
    trace w' = trace w ++ map streamEvent ops /\
    active g' = active g /\
    rDeadline g' = rDeadline g /\
    wDeadline g' = wDeadline g.
Proof.
  induction ops as [|op rest IH]; intros g c w.
  - exists g, w. simpl. rewrite app_nil_r. repeat split.
  - destruct op as [p|p].
    + destruct (IH (set_readCount
                      (uint32 (readCount g
                               + fst (connRead c (trace w) (List.length p)))) g)
                   c (emit (EvRead (List.length p)) w))
        as (g' & w' & Hrun & Htr & Ha & Hrd & Hwd).
      exists g', w'. split; [|repeat split; try assumption].
      * simpl. unfold bind at 1. rewrite stream_read_live.
        unfold bind at 1. rewrite Hrun. reflexivity.
      * rewrite Htr. simpl. rewrite <- app_assoc. reflexivity.
    + destruct (IH (set_writeCount
                      (uint32 (writeCount g + Z.of_nat (List.length p))) g)
                   c (emit (EvWrite p) w))
        as (g' & w' & Hrun & Htr & Ha & Hrd & Hwd).
      exists g', w'. split; [|repeat split; try assumption].
      * simpl. unfold bind at 1. rewrite stream_write_live.
        unfold bind at 1. rewrite Hrun. reflexivity.
      * rewrite Htr. simpl. rewrite <- app_assoc. reflexivity.
Qed.

(** ** Activity time and keepalive *)

(** X8: the activity time is stored as an offset from [launchTime] and
    read back whole: for a clock reading that is a [time.Duration],
    [getActive] right after [updateActive] returns [launchTime] plus that
    reading, whatever was stored before.  A pong does the same through the
    message adapter: [handlePong] ignores its payload, returns nil, sends
    nothing on the transport and changes no other field. *)
Theorem activity_round_trip
    (g : gettyConn) (c : WSConn) (w : World) (message : string) :
  minInt64 <= sinceLaunch w <= maxInt64 ->
  result (bind updateActive (fun _ => getActive)) (mkObj g w)
  = Return (launchTime w + sinceLaunch w) /\
  WS.handlePong message (mkObj (WS.mkGettyWSConn g c) w)
  = (Return None,
     mkObj (WS.mkGettyWSConn (set_active (sinceLaunch w) g) c)
           (emit EvSince w)) /\
  result (bind (WS.handlePong message) (fun _ => WS.onBase getActive))
         (mkObj (WS.mkGettyWSConn g c) w)
  = Return (launchTime w + sinceLaunch w).
Proof.
  intros Hrange. pose proof (int64_id _ Hrange) as Hid.
  split; [|split].
  - run_monad. rewrite Hid. reflexivity.
  - run_call. rewrite Hid. reflexivity.
  - unfold result. run_call. rewrite Hid. reflexivity.
Qed.





(** ** Closing the message adapter again *)

(** X10: the message adapter's [close] has no guard against being called
    again.  Over a TCP connection, [n] calls in a row all return normally,
    send [n] close frames and close the transport [n] times, and the
    adapter itself is left as it was, handle included. *)
Theorem message_close_repeats (n : nat) :
  forall (g : gettyConn) (c : WSConn) (w : World) (waitSec : Z),
    underlyingIsTCP c = true ->
    exists w',
      times n (WS.close waitSec) (mkObj (WS.mkGettyWSConn g c) w)
      = (Return tt, mkObj (WS.mkGettyWSConn g c) w') /\
      closeCount (trace w') = (closeCount (trace w) + n)%nat /\
      transportCalls (trace w')
      = transportCalls (trace w)
        ++ List.concat (repeat [EvWriteMessage CloseMessage WS.farewell;
                           EvSetLinger waitSec; EvClose] n).
Proof.
  induction n as [|n IH]; intros g c w waitSec Htcp.
  - exists w. simpl. rewrite Nat.add_0_r, app_nil_r. repeat split.
  - destruct (IH g c
                (emit EvClose
                   (emit (EvSetLinger waitSec)
                      (emit (EvWriteMessage CloseMessage WS.farewell) w)))
                waitSec Htcp) as (w' & Hrun & Hcc & Htc).
    exists w'. split; [|split].
    + simpl. unfold bind at 1.
      assert (Hstep :
        WS.close waitSec (mkObj (WS.mkGettyWSConn g c) w)
        = (Return tt,
           mkObj (WS.mkGettyWSConn g c)
                 (emit EvClose
                    (emit (EvSetLinger waitSec)
                       (emit (EvWriteMessage CloseMessage WS.farewell) w))))).
      { run_call. rewrite Htcp. reflexivity. }
      rewrite Hstep. exact Hrun.
    + rewrite Hcc. simpl trace. rewrite !closeCount_app.
      unfold closeCount at 2 3 4. simpl. lia.
    + rewrite Htc. simpl trace. rewrite !transportCalls_app. simpl.
      rewrite <- !app_assoc. reflexivity.
Qed.

(** ** Package counters *)

Lemma times_inc (n : nat) :
  forall (g : gettyConn) (w : World),
    0 <= readPkgCount g < 2 ^ 32 ->
    0 <= writePkgCount g < 2 ^ 32 ->
    times n incReadPkgCount (mkObj g w)
    = (Return tt,
       mkObj (set_readPkgCount (uint32 (readPkgCount g + Z.of_nat n)) g) w) /\
    times n incWritePkgCount (mkObj g w)
    = (Return tt,
       mkObj (set_writePkgCount (uint32 (writePkgCount g + Z.of_nat n)) g) w).
Proof.
  induction n as [|n IH]; intros g w Hr Hw.
  - simpl. rewrite !Z.add_0_r, !uint32_id by assumption.
    destruct g. split; reflexivity.
  - destruct (IH (set_readPkgCount (AddUint32 (readPkgCount g) 1) g) w)
      as (Hread & _); [apply AddUint32_range | exact Hw |].
    destruct (IH (set_writePkgCount (AddUint32 (writePkgCount g) 1) g) w)
      as (_ & Hwrite); [exact Hr | apply AddUint32_range |].
    split.
    + simpl times. unfold bind at 1. unfold incReadPkgCount at 1.
      unfold modSelf, modify. simpl. rewrite Hread. simpl.
      unfold AddUint32. rewrite uint32_add_l.
      replace (readPkgCount g + 1 + Z.of_nat n)
        with (readPkgCount g + Z.of_nat (S n)) by lia.
      destruct g. reflexivity.
    + simpl times. unfold bind at 1. unfold incWritePkgCount at 1.
      unfold modSelf, modify. simpl. rewrite Hwrite. simpl.
      unfold AddUint32. rewrite uint32_add_l.
      replace (writePkgCount g + 1 + Z.of_nat n)
        with (writePkgCount g + Z.of_nat (S n)) by lia.
      destruct g. reflexivity.
Qed.

Lemma uint32_full_turn (z : Z) : 0 <= z < 2 ^ 32 -> uint32 (z + 2 ^ 32) = z.
Proof.
  intros Hz. unfold uint32. rewrite <- (Z.mul_1_l (2 ^ 32)) at 1.
  rewrite Z.mod_add by lia. apply Z.mod_small. exact Hz.
Qed.

(** X11: [incReadPkgCount] and [incWritePkgCount] never panic; [n] calls
    add [n] to their own counter in 32 bits and touch nothing else, so
    after [2 ^ 32] calls the adapter state is back where it started. *)
Theorem package_counters_count (n : nat) (g : gettyConn) (w : World) :
  0 <= readPkgCount g < 2 ^ 32 ->
  0 <= writePkgCount g < 2 ^ 32 ->
  times n incReadPkgCount (mkObj g w)
  = (Return tt,
     mkObj (set_readPkgCount (uint32 (readPkgCount g + Z.of_nat n)) g) w) /\
  times n incWritePkgCount (mkObj g w)
  = (Return tt,
     mkObj (set_writePkgCount (uint32 (writePkgCount g + Z.of_nat n)) g) w) /\
  times (Z.to_nat (2 ^ 32)) incReadPkgCount (mkObj g w)
  = (Return tt, mkObj g w) /\
  times (Z.to_nat (2 ^ 32)) incWritePkgCount (mkObj g w)
  = (Return tt, mkObj g w).
Proof.
  intros Hr Hw.
  destruct (times_inc n g w Hr Hw) as (Hread & Hwrite).
  destruct (times_inc (Z.to_nat (2 ^ 32)) g w Hr Hw) as (Hread' & Hwrite').
  rewrite Z2Nat.id in Hread', Hwrite' by lia.
  rewrite uint32_full_turn in Hread', Hwrite' by assumption.
  split; [exact Hread|]. split; [exact Hwrite|].
  destruct g. split; [exact Hread' | exact Hwrite'].
Qed.

(** ** Deadlines through the interface *)

Lemma setDeadlines_base (cs : list deadlineCall) :
  forall (g : gettyConn) (w : World),
    Forall (fun c => 0 < deadlineValue c) cs ->
    exists g',
      setDeadlines cs (mkObj g w) = (Return tt, mkObj g' w) /\
      rDeadline g'
      = match lastSetRead cs with
        | Some d => d
        | None => rDeadline g
        end /\
      wDeadline g'
      = match lastSetWrite cs with
        | Some d => d
        | None =>
            if wDeadline g =? 0
            then match firstSetRead cs with
                 | Some d => d
                 | None => 0
                 end
            else wDeadline g
        end.
Proof.
  induction cs as [|[d|d] rest IH]; intros g w Hpos.
  - exists g. simpl. repeat split.
    destruct (wDeadline g =? 0) eqn:Hw; [|reflexivity].
    apply Z.eqb_eq in Hw. exact Hw.
  - inversion Hpos as [|c cs' Hd Hrest]; subst. simpl in Hd.
    assert (Hlt : (d <? 1) = false) by (apply Z.ltb_ge; lia).
    destruct (IH (if wDeadline g =? 0
                  then set_wDeadline d (set_rDeadline d g)
                  else set_rDeadline d g) w Hrest)
      as (g' & Hrun & Hr & Hw).
    exists g'. split; [|split].
    + simpl. unfold bind at 1. run_monad. rewrite Hlt. simpl.
      destruct (wDeadline g =? 0); simpl; exact Hrun.
    + rewrite Hr. simpl.
      destruct (lastSetRead rest); [reflexivity|].
      destruct (wDeadline g =? 0); reflexivity.
    + rewrite Hw. simpl. destruct (lastSetWrite rest); [reflexivity|].
      destruct (wDeadline g =? 0) eqn:H0; simpl.
      * destruct (d =? 0) eqn:Hd0; [|reflexivity].
        apply Z.eqb_eq in Hd0. lia.
      * rewrite H0. reflexivity.
  - inversion Hpos as [|c cs' Hd Hrest]; subst. simpl in Hd.
    assert (Hlt : (d <? 1) = false) by (apply Z.ltb_ge; lia).
    destruct (IH (set_wDeadline d g) w Hrest) as (g' & Hrun & Hr & Hw).
    exists g'. split; [|split].
    + simpl. unfold bind at 1. run_monad. rewrite Hlt. simpl. exact Hrun.
    + rewrite Hr. reflexivity.
    + rewrite Hw. simpl. destruct (lastSetWrite rest); [reflexivity|].
      destruct (d =? 0) eqn:Hd0; [|reflexivity].
      apply Z.eqb_eq in Hd0. lia.
Qed.

Lemma setDeadlines_stream (cs : list deadlineCall) :
  forall (g : gettyConn) (c : option NetConn) (w : World),
    setDeadlines (T := TCP.gettyTCPConn) cs (mkObj (TCP.mkGettyTCPConn g c) w)
    = (fst (setDeadlines (T := gettyConn) cs (mkObj g w)),
       mkObj (TCP.mkGettyTCPConn
                (self (exec (setDeadlines (T := gettyConn) cs) (mkObj g w))) c)
             (world (exec (setDeadlines (T := gettyConn) cs) (mkObj g w)))).
Proof.
  induction cs as [|[d|d] rest IH]; intros g c w; [reflexivity| |].
  - simpl. unfold exec, bind, TCP.onBase, promoted. simpl.
    destruct (setReadDeadline d (mkObj g w)) as [[[]|msg] [g1 w1]]; simpl;
      [|reflexivity].
    unfold TCP.set_base. simpl. rewrite IH. reflexivity.
  - simpl. unfold exec, bind, TCP.onBase, promoted. simpl.
    destruct (setWriteDeadline d (mkObj g w)) as [[[]|msg] [g1 w1]]; simpl;
      [|reflexivity].
    unfold TCP.set_base. simpl. rewrite IH. reflexivity.
Qed.

Lemma setDeadlines_message (cs : list deadlineCall) :
  forall (g : gettyConn) (c : WSConn) (w : World),
    setDeadlines (T := WS.gettyWSConn) cs (mkObj (WS.mkGettyWSConn g c) w)
    = (fst (setDeadlines (T := gettyConn) cs (mkObj g w)),
       mkObj (WS.mkGettyWSConn
                (self (exec (setDeadlines (T := gettyConn) cs) (mkObj g w))) c)
             (world (exec (setDeadlines (T := gettyConn) cs) (mkObj g w)))).
Proof.
  induction cs as [|[d|d] rest IH]; intros g c w; [reflexivity| |].
  - simpl. unfold exec, bind, WS.onBase, promoted. simpl.
    destruct (setReadDeadline d (mkObj g w)) as [[[]|msg] [g1 w1]]; simpl;
      [|reflexivity].
    unfold WS.set_base. simpl. rewrite IH. reflexivity.
  - simpl. unfold exec, bind, WS.onBase, promoted. simpl.
    destruct (setWriteDeadline d (mkObj g w)) as [[[]|msg] [g1 w1]]; simpl;
      [|reflexivity].
    unfold WS.set_base. simpl. rewrite IH. reflexivity.
Qed.

(** X12: on a connection whose deadlines are both unset, after any list of
    setter calls with positive durations the read getter returns the last
    read deadline set (0 if none was), and the write getter returns the
    last write deadline set or, when none was set, the first read
    deadline set: later read deadlines do not move a write deadline that
    was back-filled.  The same holds through the interface on the record
    itself and on both adapters, whose handles play no part. *)
Theorem deadlines_after_setters
    (cs : list deadlineCall) (g : gettyConn) (c : option NetConn)
    (wc : WSConn) (w : World) :
  Forall (fun call => 0 < deadlineValue call) cs ->
  rDeadline g = 0 ->
  wDeadline g = 0 ->
  let expected :=
    (orZero (lastSetRead cs),
     match lastSetWrite cs with
     | Some d => d
     | None => orZero (firstSetRead cs)
     end) in
  result (deadlinesAfter (T := gettyConn) cs) (mkObj g w) = Return expected /\
  result (deadlinesAfter (T := TCP.gettyTCPConn) cs)
         (mkObj (TCP.mkGettyTCPConn g c) w)
  = Return expected /\
  result (deadlinesAfter (T := WS.gettyWSConn) cs)
         (mkObj (WS.mkGettyWSConn g wc) w)
  = Return expected.
Proof.
  intros Hpos Hr0 Hw0 expected.
  destruct (setDeadlines_base cs g w Hpos) as (g' & Hrun & Hr & Hw).
  rewrite Hr0 in Hr. rewrite Hw0 in Hw. simpl in Hw.
  assert (Hexp : (rDeadline g', wDeadline g') = expected).
  { subst expected. rewrite Hr, Hw. unfold orZero.
    destruct (lastSetRead cs); reflexivity. }
  split; [|split].
  - unfold result, deadlinesAfter, bind. rewrite Hrun. simpl.
    rewrite Hexp. reflexivity.
  - unfold result, deadlinesAfter, bind. rewrite setDeadlines_stream.
    unfold exec. rewrite Hrun. simpl. rewrite Hexp. reflexivity.
  - unfold result, deadlinesAfter, bind. rewrite setDeadlines_message.
    unfold exec. rewrite Hrun. simpl. rewrite Hexp. reflexivity.
Qed.

(** ** Construction *)

Lemma build_present (h : option NetConn + option WSConn) (w : World) :
  present h = true ->
  exists w',
    build h w = (Return (AddUint32 (connID w) 1), w') /\
    connID w' = AddUint32 (connID w) 1.
Proof.
  destruct h as [[c|]|[c|]]; try discriminate; intros _;
    eexists; split; reflexivity.
Qed.

Lemma build_absent (h : option NetConn + option WSConn) (w : World) :
  present h = false ->
  exists msg, build h w = (Panic msg, w).
Proof.
  destruct h as [[c|]|[c|]]; try discriminate; intros _;
    eexists; reflexivity.
Qed.

Lemma buildAll_present (hs : list (option NetConn + option WSConn)) :
  forall w : World,
    forallb present hs = true ->
    0 <= connID w < 2 ^ 32 ->
    exists w',
      buildAll hs w
      = (Return (map (fun k => uint32 (connID w + Z.of_nat k))
                     (seq 1 (List.length hs))), w') /\
      connID w' = uint32 (connID w + Z.of_nat (List.length hs)).
Proof.
  induction hs as [|h rest IH]; intros w Hall Hid.
  - exists w. simpl. rewrite Z.add_0_r, uint32_id by exact Hid.
    split; reflexivity.
  - simpl in Hall. apply andb_true_iff in Hall. destruct Hall as [Hh Hrest].
    destruct (build_present h w Hh) as (w1 & Hbuild & Hid1).
    destruct (IH w1 Hrest) as (w' & Hrun & Hid');
      [rewrite Hid1; apply AddUint32_range|].
    exists w'. split.
    + simpl buildAll. unfold bind at 1. rewrite Hbuild.
      unfold bind at 1. rewrite Hrun. simpl. unfold ret. f_equal. f_equal.
      f_equal. rewrite <- (seq_shift (List.length rest) 1), map_map.
      apply map_ext. intros k. rewrite Hid1. unfold AddUint32.
      rewrite uint32_add_l. f_equal. lia.
    + rewrite Hid', Hid1. unfold AddUint32. rewrite uint32_add_l.
      f_equal. simpl List.length. lia.
Qed.

Lemma shifted_range_sorted (a : Z) (n s : nat) :
  StronglySorted Z.lt (map (fun k => a + Z.of_nat k) (seq s n)).
Proof.
  revert s. induction n as [|n IH]; intros s; simpl; constructor.
  - apply IH.
  - apply Forall_forall. intros v Hv.
    apply in_map_iff in Hv. destruct Hv as (k & <- & Hk).
    apply in_seq in Hk. lia.
Qed.

(** X13: both constructors draw on the one generator.  Adapters built one
    after another over non-nil handles, stream and message mixed, get
    consecutive identities, pairwise distinct as long as the 32-bit
    counter does not wrap.  A nil handle makes its constructor panic
    before the generator is touched: the identities handed out are those
    of the adapters built before it. *)
Theorem constructors_share_identities
    (hs : list (option NetConn + option WSConn)) (w : World) :
  forallb present hs = true ->
  0 <= connID w ->
  connID w + Z.of_nat (List.length hs) < 2 ^ 32 ->
  (exists w',
     buildAll hs w
     = (Return (map (fun k => connID w + Z.of_nat k) (seq 1 (List.length hs))),
        w') /\
     connID w' = connID w + Z.of_nat (List.length hs) /\
     NoDup (map (fun k => connID w + Z.of_nat k) (seq 1 (List.length hs)))) /\
  (forall (h : option NetConn + option WSConn)
          (post : list (option NetConn + option WSConn)),
     present h = false ->
     exists msg w',
       buildAll (hs ++ h :: post) w = (Panic msg, w') /\
       connID w' = connID w + Z.of_nat (List.length hs)).
Proof.
  intros Hall Hlo Hhi. split.
  - destruct (buildAll_present hs w Hall) as (w' & Hrun & Hid); [lia|].
    exists w'. split; [|split].
    + rewrite Hrun. f_equal. f_equal. apply map_ext_in. intros k Hk.
      apply in_seq in Hk. apply uint32_id. lia.
    + rewrite Hid. apply uint32_id. lia.
    + apply StronglySorted_lt_NoDup, shifted_range_sorted.
  - intros h post Hh. revert w Hlo Hhi.
    induction hs as [|h0 rest IH]; intros w Hlo Hhi.
    + destruct (build_absent h w Hh) as (msg & Hbuild).
      exists msg, w. split.
      * simpl. unfold bind at 1. rewrite Hbuild. reflexivity.
      * simpl. lia.
    + simpl in Hall. apply andb_true_iff in Hall.
      destruct Hall as [Hh0 Hrest].
      destruct (build_present h0 w Hh0) as (w1 & Hbuild & Hid1).
      assert (Hid1' : connID w1 = connID w + 1).
      { rewrite Hid1. unfold AddUint32. apply uint32_id.
        simpl List.length in Hhi. lia. }
      destruct (IH Hrest w1) as (msg & w' & Hrun & Hid');
        [lia | simpl List.length in Hhi; lia |].
      exists msg, w'. split.
      * simpl. unfold bind at 1. rewrite Hbuild.
        unfold bind at 1. rewrite Hrun. reflexivity.
      * rewrite Hid', Hid1'. simpl List.length. lia.
Qed.


(** ** Pings in a row *)

Lemma handlePing_step (g : gettyConn) (c : WSConn) (w : World)
    (message : string) :
  exists e g1 w1,
    WS.handlePing message (mkObj (WS.mkGettyWSConn g c) w)
    = (Return e, mkObj (WS.mkGettyWSConn g1 c) w1) /\
    transportCalls (trace w1) = transportCalls (trace w) ++ [pongFor message] /\
    counters g1 = counters g /\
    WS.isErrCloseSent e = false /\
    WS.isTemporary e = false.
Proof.
  run_call. unfold pongFor.
  destruct (wsWriteMessage c (trace w) PongMessage
              (list_byte_of_string message))
    as [[| code text | [|] text | text]|]; simpl;
    eexists; eexists; eexists; (split; [reflexivity|]); simpl;
    rewrite ?transportCalls_app; simpl; rewrite ?app_nil_r;
    repeat split; reflexivity.
Qed.

(** X15: the ping handler never panics and answers every ping, whatever
    happened to the pongs before it: a run of pings sends one pong per
    ping, in order, each with its ping's payload, and makes no other
    transport call.  It leaves the four traffic counters alone, and an
    error it returns is never [ErrCloseSent] nor a temporary net.Error. *)
Theorem pings_are_all_answered (messages : list string) :
  forall (g : gettyConn) (c : WSConn) (w : World),
  exists es g' w',
    pings messages (mkObj (WS.mkGettyWSConn g c) w)
    = (Return es, mkObj (WS.mkGettyWSConn g' c) w') /\
    List.length es = List.length messages /\
    transportCalls (trace w')
    = transportCalls (trace w) ++ map pongFor messages /\
    counters g' = counters g /\
    Forall (fun e => WS.isErrCloseSent e = false /\ WS.isTemporary e = false)
           es.
Proof.
  induction messages as [|message rest IH]; intros g c w.
  - exists [], g, w. simpl. rewrite app_nil_r. repeat split. constructor.
  - destruct (handlePing_step g c w message)
      as (e & g1 & w1 & Hstep & Htc1 & Hc1 & Hsent & Htmp).
    destruct (IH g1 c w1) as (es & g' & w' & Hrun & Hlen & Htc & Hc & Hall).
    exists (e :: es), g', w'. split; [|split; [|split; [|split]]].
    + simpl. unfold bind at 1. rewrite Hstep.
      unfold bind at 1. rewrite Hrun. reflexivity.
    + simpl. now rewrite Hlen.
    + rewrite Htc, Htc1. simpl. rewrite <- app_assoc. reflexivity.
    + rewrite Hc. exact Hc1.
    + constructor; [split; assumption | exact Hall].
Qed.

(** ** These theorems at concrete inputs *)

Lemma adapters_stay_wellFormed_witness :
  wellFormed freshConn /\
  wellFormed
    (TCP.base
       (self
          (exec (runCalls streamCall
                   [(5, StreamWrite ["a"%byte]);
                    (6, StreamBase (SetReadDeadline 3));
                    (7, StreamClose 0);
                    (8, StreamRead [])])
                (mkObj (TCP.mkGettyTCPConn freshConn (Some tcpSample))
                       freshWorld)))).
Proof.
  destruct adapters_stay_wellFormed as (Hstream & _ & Hnew).
  assert (Hfresh : wellFormed freshConn) by (apply Hnew; lia).
  split; [exact Hfresh|]. apply Hstream. exact Hfresh.
Defined.


Lemma activity_round_trip_witness :
  minInt64 <= sinceLaunch (set_sinceLaunch 42 freshWorld) <= maxInt64 /\
  result (bind updateActive (fun _ => getActive))
         (mkObj freshConn (set_sinceLaunch 42 freshWorld))
  = Return 142.
Proof.
  assert (H : minInt64 <= sinceLaunch (set_sinceLaunch 42 freshWorld)
              <= maxInt64)
    by (unfold minInt64, maxInt64; simpl; lia).
  split; [exact H|].
  destruct (activity_round_trip freshConn wssSample
              (set_sinceLaunch 42 freshWorld) "" H) as [Hround _].
  exact Hround.
Defined.


Lemma message_close_repeats_witness :
  underlyingIsTCP (wsSample 1000 None) = true /\
  exists w',
    times 2 (WS.close 0)
      (mkObj (WS.mkGettyWSConn freshConn (wsSample 1000 None)) freshWorld)
    = (Return tt,
       mkObj (WS.mkGettyWSConn freshConn (wsSample 1000 None)) w') /\
    closeCount (trace w') = 2%nat.
Proof.
  split; [reflexivity|].
  destruct (message_close_repeats 2 freshConn (wsSample 1000 None) freshWorld 0)
    as (w' & Hrun & Hcc & _); [reflexivity|].
  exists w'. split; [exact Hrun | exact Hcc].
Defined.

Lemma package_counters_count_witness :
  0 <= readPkgCount freshConn < 2 ^ 32 /\
  0 <= writePkgCount freshConn < 2 ^ 32 /\
  times 3 incReadPkgCount (mkObj freshConn freshWorld)
  = (Return tt, mkObj (set_readPkgCount 3 freshConn) freshWorld).
Proof.
  assert (Hr : 0 <= readPkgCount freshConn < 2 ^ 32) by (simpl; lia).
  assert (Hw : 0 <= writePkgCount freshConn < 2 ^ 32) by (simpl; lia).
  split; [exact Hr|]. split; [exact Hw|].
  destruct (package_counters_count 3 freshConn freshWorld Hr Hw) as [H _].
  exact H.
Defined.

(** Read deadline 5, then 7: the write deadline stays at 5. *)
Lemma deadlines_after_setters_witness :
  Forall (fun call => 0 < deadlineValue call) [SetRead 5; SetRead 7] /\
  result (deadlinesAfter (T := TCP.gettyTCPConn) [SetRead 5; SetRead 7])
         (mkObj (TCP.mkGettyTCPConn freshConn (Some tcpSample)) freshWorld)
  = Return (7, 5).
Proof.
  assert (Hpos : Forall (fun call => 0 < deadlineValue call)
                   [SetRead 5; SetRead 7])
    by (repeat constructor).
  split; [exact Hpos|].
  destruct (deadlines_after_setters [SetRead 5; SetRead 7] freshConn
              (Some tcpSample) wssSample freshWorld Hpos eq_refl eq_refl)
    as (_ & H & _).
  exact H.
Defined.

Lemma constructors_share_identities_witness :
  exists w',
    buildAll [inl (Some tcpSample); inr (Some wssSample); inl (Some pipeSample)]
      freshWorld
    = (Return [1; 2; 3], w') /\
    connID w' = 3.
Proof.
  destruct (constructors_share_identities
              [inl (Some tcpSample); inr (Some wssSample);
               inl (Some pipeSample)] freshWorld)
    as [(w' & Hrun & Hid & _) _];
    [reflexivity | simpl; lia | simpl; lia |].
  exists w'. split; [exact Hrun | exact Hid].
Defined.
